(** * ScanPass: the visual verification pipeline

    A shallow embedding of the backend of ScanPass
    ([backend/liveness.py], [backend/embedding_engine.py],
    [backend/challenges.py] and the [authenticate] endpoint of
    [backend/main.py]) together with the properties its specification
    states about it, followed by the accounts ([backend/models.py], the
    password hashing of [backend/auth.py]) and the other endpoints of
    [backend/main.py] with further properties of the code.

    Numbers.  Python floats are embedded as rationals ([Q]): comparison,
    negation, [abs] and [max] are exact on finite floats, and sums, means
    and quotients are taken in exact arithmetic.  NaN and infinities are
    outside the model.  Square roots, float formatting and the vision and
    network primitives (OpenCV, the MobileNetV2 extractor) are parameters
    of the development.  The one place where the code turns floats into
    list positions, [np.linspace(..., dtype=int)], is also given in
    binary64 ([Np.linspace_f64]), and the sampling theorem is stated where
    the two agree. *)

From Stdlib Require Import QArith Qabs Qround ZArith List String Ascii Bool.
From Stdlib Require Import Lia Lqa Permutation DecimalString.
From Stdlib Require SpecFloat.
Import ListNotations.

Local Open Scope Q_scope.

(** ** Python builtins used by the backend *)

Module Py.

(** [a > b], [a < b] and [a >= b] on floats. *)
Definition gt (a b : Q) : bool := negb (Qle_bool a b).
Definition lt (a b : Q) : bool := negb (Qle_bool b a).
Definition ge (a b : Q) : bool := Qle_bool b a.

(** [max(a, b)]: the second argument wins only when strictly greater. *)
Definition max (a b : Q) : Q := if gt b a then b else a.

Definition abs (a : Q) : Q := Qabs a.

(** Round to the nearest integer, ties to the even one. *)
Definition round_half_even (x : Q) : Z :=
  let f := Qfloor x in
  match ((x - inject_Z f) ?= (1 # 2))%Q with
  | Lt => f
  | Gt => (f + 1)%Z
  | Eq => if Z.even f then f else (f + 1)%Z
  end.

(** [round(x, ndigits)]. *)
Definition round (x : Q) (ndigits : nat) : Q :=
  let scale := inject_Z (10 ^ Z.of_nat ndigits) in
  inject_Z (round_half_even (x * scale)) / scale.

(** [str(n)] for a non-negative integer. *)
Definition str_nat (n : nat) : string :=
  NilEmpty.string_of_uint (Nat.to_uint n).

(** A dict in insertion order. *)
Definition dict (V : Type) : Type := list (string * V).

Fixpoint dict_get {V : Type} (d : dict V) (k : string) : option V :=
  match d with
  | [] => None
  | (k', v) :: d' => if String.eqb k' k then Some v else dict_get d' k
  end.

Definition keys {V : Type} (d : dict V) : list string := map fst d.

(** [max(d, key=d.get)] scans the keys in insertion order and replaces
    the running best only by a strictly greater value, so the first of
    several maximal keys is returned. *)
Fixpoint max_by (score : string -> Q) (best : string) (rest : list string)
  : string :=
  match rest with
  | [] => best
  | k :: rest' =>
      max_by score (if gt (score k) (score best) then k else best) rest'
  end.

Definition get_or_zero (d : dict Q) (k : string) : Q :=
  match dict_get d k with Some v => v | None => 0 end.

(** [None] stands for the [ValueError] raised on an empty dict. *)
Definition max_key (d : dict Q) : option string :=
  match keys d with
  | [] => None
  | k :: ks => Some (max_by (get_or_zero d) k ks)
  end.

(** [', '.join(parts)]. *)
Fixpoint join (sep : string) (parts : list string) : string :=
  match parts with
  | [] => EmptyString
  | [p] => p
  | p :: ps => (p ++ sep ++ join sep ps)%string
  end.

Definition upper_ascii (c : ascii) : ascii :=
  let n := nat_of_ascii c in
  if ((97 <=? n) && (n <=? 122))%nat then ascii_of_nat (n - 32) else c.

(** [s.upper()] on ASCII text. *)
Fixpoint upper (s : string) : string :=
  match s with
  | EmptyString => EmptyString
  | String c s' => String (upper_ascii c) (upper s')
  end.

End Py.

(** ** NumPy reductions *)

(** ** IEEE 754 binary64, for the one computation that turns floats into
    positions *)

Module F64.

Definition prec : Z := 53.
Definition emax : Z := 1024.

Definition float : Type := SpecFloat.spec_float.

(** The float nearest to an integer *)
Definition of_Z (z : Z) : float :=
  match z with
  | Z0 => SpecFloat.S754_zero false
  | Zpos p => SpecFloat.binary_normalize prec emax (Zpos p) 0 false
  | Zneg p =>
      SpecFloat.SFopp (SpecFloat.binary_normalize prec emax (Zpos p) 0 false)
  end.

Definition mul : float -> float -> float := SpecFloat.SFmul prec emax.
Definition div : float -> float -> float := SpecFloat.SFdiv prec emax.
Definition add : float -> float -> float := SpecFloat.SFadd prec emax.

(** [x == 0] *)
Definition is_zero (x : float) : bool :=
  match x with
  | SpecFloat.S754_zero _ => true
  | _ => false
  end.

(** [np.floor] followed by the cast to int, on a finite float *)
Definition floor (x : float) : Z :=
  match x with
  | SpecFloat.S754_finite s m e =>
      let v := if s then Zneg m else Zpos m in
      if (0 <=? e)%Z then (v * 2 ^ e)%Z else (v / 2 ^ (- e))%Z
  | _ => 0%Z
  end.

End F64.

Module Np.

Definition sum (l : list Q) : Q := fold_right Qplus 0 l.

(** [np.mean] over all the entries of an array. *)
Definition mean (l : list Q) : Q := sum l / inject_Z (Z.of_nat (List.length l)).

(** [np.max], with the first entry as the seed. *)
Definition amax (l : list Q) : Q :=
  match l with
  | [] => 0
  | x :: l' => fold_left (fun m y => if Py.gt y m then y else m) l' x
  end.

(** [np.linspace(0, stop, num, dtype=int)] in the exact arithmetic of
    this development: the [num] evenly spaced values
    [i * stop / (num - 1)], cast to int by truncation.  NumPy takes the
    step [stop / (num - 1)] and the products [i * step] in binary64, which
    can land just below an integer the exact quotient reaches (122 over
    14 steps: position 60 at [i = 7], where the exact quotient is 61);
    [linspace_f64] below follows that arithmetic. *)
Definition linspace_int (stop : Z) (num : nat) : list Z :=
  match num with
  | O => []
  | S O => [0%Z]
  | S (S _ as d) =>
      map (fun i => Z.quot (Z.of_nat i * stop) (Z.of_nat d)) (seq 0 num)
  end.

(** [y[-1] = stop] *)
Fixpoint set_last {A : Type} (y : list A) (stop : A) : list A :=
  match y with
  | [] => []
  | [_] => [stop]
  | v :: y' => v :: set_last y' stop
  end.

(** [np.linspace(0, stop, num, dtype=int)] as NumPy computes it, in
    binary64: [delta = stop - start], [y = arange(0, num)],
    [step = delta / div] with [div = num - 1], [y = y * step] (or
    [(y / div) * delta] when the step is zero, [y * delta] when [div] is
    not positive), [y += start], the last entry set to [stop] when
    [num > 1], then [floor] and the cast to int. *)
Definition linspace_f64 (stop : Z) (num : nat) : list Z :=
  let div := (Z.of_nat num - 1)%Z in
  let start := F64.of_Z 0 in
  let delta := F64.of_Z stop in
  let y := map (fun i => F64.of_Z (Z.of_nat i)) (seq 0 num) in
  let y :=
    if (0 <? div)%Z then
      let step := F64.div delta (F64.of_Z div) in
      if F64.is_zero step then
        map (fun v => F64.mul (F64.div v (F64.of_Z div)) delta) y
      else map (fun v => F64.mul v step) y
    else map (fun v => F64.mul v delta) y in
  let y := map (fun v => F64.add v start) y in
  let y := if (1 <? num)%nat then set_last y delta else y in
  map F64.floor y.


End Np.


(** ** Calls into the vision library, recorded in order *)

Inductive Call (Frame Gray : Type) : Type :=
| CallCvtColor (f : Frame)
| CallFarneback (prev next : Gray).

Arguments CallCvtColor {Frame Gray} f.
Arguments CallFarneback {Frame Gray} prev next.

(** A computation that returns a value and the calls it made. *)
Definition Traced (C A : Type) : Type := (A * list C)%type.

Definition ret {C A : Type} (a : A) : Traced C A := (a, []).

Definition bind {C A B : Type} (m : Traced C A) (k : A -> Traced C B)
  : Traced C B :=
  let '(a, t1) := m in let '(b, t2) := k a in (b, (t1 ++ t2)%list).

Definition call {C A : Type} (c : C) (a : A) : Traced C A := (a, [c]).

Notation "x <- m ;; k" := (bind m (fun x => k))
  (at level 61, m at next level, right associativity).

Fixpoint mapT {C A B : Type} (f : A -> Traced C B) (l : list A)
  : Traced C (list B) :=
  match l with
  | [] => ret []
  | a :: l' => b <- f a ;; bs <- mapT f l' ;; ret (b :: bs)
  end.

Definition value {C A : Type} (m : Traced C A) : A := fst m.
Definition trace {C A : Type} (m : Traced C A) : list C := snd m.

(** A dense flow field: [H] rows of [W] displacements [(dx, dy)]. *)
Definition Flow : Type := list (list (Q * Q)).

Record MotionStats : Type := {
  avg_magnitude : Q;
  max_magnitude : Q;
  std_magnitude : Q
}.

Record DirectionInfo : Type := {
  horizontal : Q;
  vertical : Q;
  expansion : Q;
  rotation : Q
}.

Record LivenessResult : Type := {
  is_live : bool;
  motion_score : Q;
  liveness_reason : string
}.

(** The result of the direction check; [flow_details] is absent from the
    dict returned for fewer than two frames. *)
Record DirectionResult : Type := {
  direction_match : bool;
  detected_direction : string;
  confidence : Q;
  direction_reason : string;
  flow_details : option DirectionInfo
}.

(** ** Faults *)

(** The exceptions the pipeline can raise, one constructor per raise site:
    the two [ValueError]s of [extract_frames], an out-of-range list index,
    NumPy refusing rows of different lengths, and the two input checks of
    scikit-learn's pairwise metrics.  [MeanOfEmptyIsNaN] stands for the NaN
    that [np.mean] yields on no rows, which the number model lacks. *)
Inductive Exception : Type :=
| ValueError_could_not_open
| ValueError_no_frames
| IndexError
| ValueError_inhomogeneous_shape
| MeanOfEmptyIsNaN
| ValueError_no_features
| ValueError_incompatible_dimension (x_features y_features : nat).

(** ** The video capture *)

(** An opened [cv2.VideoCapture]: whether the container opened, the frame
    count its header reports ([CAP_PROP_FRAME_COUNT]), and the frames that
    decode. *)
Record Video (Frame : Type) : Type := {
  isOpened : bool;
  frame_count : Z;
  stream : list Frame
}.

Arguments isOpened {Frame} v.
Arguments frame_count {Frame} v.
Arguments stream {Frame} v.

(** [cap.read()] repeated until it fails *)
Definition read_all {Frame : Type} (video : Video Frame) : list Frame :=
  stream video.

(** [cap.set(cv2.CAP_PROP_POS_FRAMES, idx)] followed by [cap.read()]: the
    frame at [idx], whatever was read before (a capture that refuses to
    seek back once its last frame has been consumed is outside the
    model). *)
Definition read_at {Frame : Type} (video : Video Frame) (idx : Z)
  : option Frame :=
  if (idx <? 0)%Z then None else nth_error (stream video) (Z.to_nat idx).

(** [[frames[i] for i in indices]] with non-negative indices; [None] is
    an index out of range. *)
Fixpoint pick {A : Type} (frames : list A) (indices : list Z)
  : option (list A) :=
  match indices with
  | [] => Some []
  | i :: rest =>
      match (if (i <? 0)%Z then None else nth_error frames (Z.to_nat i)),
            pick frames rest with
      | Some f, Some fs => Some (f :: fs)
      | _, _ => None
      end
  end.

(** ** [backend/challenges.py] *)

Record Challenge : Type := {
  id : string;
  text : string;
  expected_direction : string;
  description : string
}.

Definition CHALLENGES : list Challenge :=
  [ {| id := "rotate_clockwise";
       text := "🔄 Rotate your object clockwise slowly";
       expected_direction := "rotation";
       description := "Rotate the object in a clockwise direction" |};
    {| id := "move_closer";
       text := "🔍 Move your object closer to the camera";
       expected_direction := "zoom_in";
       description := "Bring the object towards the camera" |};
    {| id := "tilt_left";
       text := "↙️ Tilt your object to the left";
       expected_direction := "left";
       description := "Tilt or move the object to the left" |};
    {| id := "move_away";
       text := "🔭 Move your object away from the camera";
       expected_direction := "zoom_out";
       description := "Pull the object away from the camera" |};
    {| id := "tilt_right";
       text := "↗️ Tilt your object to the right";
       expected_direction := "right";
       description := "Tilt or move the object to the right" |} ]%string.

Definition get_challenge_by_id (challenge_id : string) : option Challenge :=
  find (fun c => String.eqb (id c) challenge_id) CHALLENGES.

(** ** The response of [/api/authenticate] *)

Record LivenessDetails : Type := {
  liveness_passed : bool;
  liveness_motion_score : Q;
  liveness_details_reason : string
}.

Record DirectionDetails : Type := {
  direction_passed : bool;
  direction_detected : string;
  direction_expected : string;
  direction_confidence : Q;
  direction_details_reason : string
}.

Record SimilarityDetails : Type := {
  similarity_passed : bool;
  similarity_score : Q;
  similarity_threshold : Q
}.

Record Details : Type := {
  liveness : LivenessDetails;
  direction : DirectionDetails;
  similarity : SimilarityDetails;
  auth_log : list string
}.

Record AuthResponse : Type := {
  success : bool;
  authenticated : bool;
  session_id : option string;
  message : string;
  details : Details
}.

(** What [str(e)] contributes to the detail of an error response. *)
Inductive Detail : Type :=
| DetailText (msg : string)
| AuthenticationFailed (e : Exception).

Record HTTPException : Type := {
  status_code : Z;
  detail : Detail
}.

(** ** Stand-ins for the external primitives

    Concrete instances of what the development takes as parameters, used
    to run the pipeline on explicit inputs. *)

Module Stub.

(** A frame that carries the flow field the tracker reports on reaching it
    and the feature vector the extractor computes for it. *)
Record Frame : Type := {
  field : Flow;
  features : list Q
}.

Definition cvtColor (f : Frame) : Frame := f.

Definition calcOpticalFlowFarneback (prev next : Frame) : Flow := field next.

Definition frame_to_embedding (f : Frame) : list Q := features f.

Definition is_square (z : Z) : bool := (Z.sqrt z * Z.sqrt z =? z)%Z.

(** Exact on squares of rationals, six decimals below the root elsewhere. *)
Definition sqrt (x : Q) : Q :=
  let r := Qred x in
  let n := Qnum r in
  let d := Zpos (Qden r) in
  if is_square n && is_square d then Z.sqrt n # Z.to_pos (Z.sqrt d)
  else Z.sqrt (n * d * 10 ^ 12) # Z.to_pos (d * 10 ^ 6).

Definition pad_left (width : nat) (s : string) : string :=
  (string_of_list_ascii (repeat "0"%char (width - String.length s)) ++ s)%string.

(** Fixed-point text of [x] with [n] decimals. *)
Definition fmt_f (n : nat) (x : Q) : string :=
  let scale := (10 ^ Z.of_nat n)%Z in
  let r := Py.round_half_even (x * inject_Z scale) in
  let a := Z.abs r in
  ((if (r <? 0)%Z then "-" else "")
   ++ Py.str_nat (Z.to_nat (a / scale)) ++ "."
   ++ pad_left n (Py.str_nat (Z.to_nat (a mod scale))))%string.

Definition repr_float (x : Q) : string := fmt_f 1 x.

(** A field of [h] rows and [w] columns with one displacement everywhere. *)
Definition uniform (h w : nat) (dx dy : Q) : Flow :=
  repeat (repeat (dx, dy) w) h.

Definition still : Flow := uniform 1 1 0 0.

(** Two frames; the flow between them is one row of two pixels, moving
    right by 1.00000001 at the left pixel and left by 2.00000001 at the
    centre pixel. *)
Definition tie_frames : list Frame :=
  [ {| field := still; features := [1; 0] |};
    {| field := [[ (100000001 # 100000000, 0);
                   (- (200000001 # 100000000), 0) ]];
       features := [1; 0] |} ].

(** Two frames with a uniform rightward flow of 0.12345. *)
Definition faint_frames : list Frame :=
  [ {| field := still; features := [1; 0] |};
    {| field := uniform 1 1 (12345 # 100000) 0; features := [1; 0] |} ].

(** Two frames with a uniform rightward flow of half a pixel. *)
Definition drift_frames : list Frame :=
  [ {| field := still; features := [1; 0] |};
    {| field := uniform 1 1 (1 # 2) 0; features := [1; 0] |} ].

(** Three frames of an object with features [(3, 4)] moving right by two
    pixels per frame. *)
Definition right_frames : list Frame :=
  [ {| field := still; features := [3; 4] |};
    {| field := uniform 1 1 2 0; features := [3; 4] |};
    {| field := uniform 1 1 2 0; features := [3; 4] |} ].

(** A single still frame. *)
Definition single_frame : list Frame :=
  [ {| field := still; features := [1; 0] |} ].

(** Three frames of three different objects. *)
Definition mixed_frames : list Frame :=
  [ {| field := still; features := [3; 4] |};
    {| field := uniform 1 1 1 0; features := [1; 0] |};
    {| field := uniform 1 1 0 1; features := [0; 2] |} ].

(** A capture whose header reports no frame count. *)
Definition uncounted {A : Type} (frames : list A) : Video A :=
  {| isOpened := true; frame_count := 0; stream := frames |}.

(** A capture whose header reports the number of frames that decode. *)
Definition counted {A : Type} (frames : list A) : Video A :=
  {| isOpened := true;
     frame_count := Z.of_nat (List.length frames);
     stream := frames |}.

Definition uuid_a : string := "3f2b8c1a-7d4e-4c1b-9a6f-0123456789ab".
Definition uuid_b : string := "c0ffee00-7d4e-4c1b-9a6f-0123456789ab".

(** Three identical frames: nothing moves. *)
Definition still_frames : list Frame :=
  [ {| field := still; features := [3; 4] |};
    {| field := still; features := [3; 4] |};
    {| field := still; features := [3; 4] |} ].

End Stub.

(** [random.choice(CHALLENGES)], given the index the generator draws
    below [len(CHALLENGES)]; [None] is an index the generator cannot
    draw. *)
Definition get_random_challenge (drawn : nat) : option Challenge :=
  nth_error CHALLENGES drawn.

(** ** More Python text primitives *)

Module PyStr.

Definition is_continuation (c : ascii) : bool :=
  let n := nat_of_ascii c in ((128 <=? n) && (n <? 192))%nat.

(** [len(s)] of a [str] held as its UTF-8 bytes: the code points. *)
Fixpoint len (s : string) : nat :=
  match s with
  | EmptyString => 0
  | String c s' => ((if is_continuation c then 0 else 1) + len s')%nat
  end.

(** [s.split(sep, 1)] on a one-character separator: the text before and
    after the first [sep], or [None] when [s] has none (the split then
    has a single part). *)
Fixpoint split_once (sep : ascii) (s : string) : option (string * string) :=
  match s with
  | EmptyString => None
  | String c s' =>
      if Ascii.eqb c sep then Some (EmptyString, s')
      else match split_once sep s' with
           | Some (before, rest) => Some (String c before, rest)
           | None => None
           end
  end.

Definition is_hex_digit (c : ascii) : bool :=
  let n := nat_of_ascii c in
  (((48 <=? n) && (n <=? 57)) || ((97 <=? n) && (n <=? 102)))%nat.

(** Text made of the digits of [secrets.token_hex]. *)
Fixpoint is_hex (s : string) : bool :=
  match s with
  | EmptyString => true
  | String c s' => is_hex_digit c && is_hex s'
  end.

End PyStr.

(** ** [backend/models.py] *)

Module Models.

(** A row of the [users] table.  The [embedding] column holds the JSON
    text of a vector, or NULL; it is kept as the vector that text
    encodes.  The [created_at] column is never read. *)
Record User : Type := {
  id : Z;
  username : string;
  password_hash : string;
  embedding : option (list Q)
}.

(** The table, in insertion order, and the largest id handed out so far
    (the AUTOINCREMENT sequence). *)
Record DB : Type := {
  users : list User;
  last_id : Z
}.

(** [init_db] on a fresh file *)
Definition init_db : DB := {| users := []; last_id := 0 |}.

(** The [IntegrityError] of the UNIQUE constraint, re-raised as a
    [ValueError] naming the user. *)
Inductive Error : Type :=
| UsernameExists (name : string).

Definition get_user (db : DB) (name : string) : option User :=
  find (fun u => String.eqb (username u) name) (users db).

Definition create_user (db : DB) (name hash : string) : Error + (Z * DB) :=
  match get_user db name with
  | Some _ => inl (UsernameExists name)
  | None =>
      let new_id := (last_id db + 1)%Z in
      inr (new_id,
           {| users :=
                (users db
                 ++ [ {| id := new_id; username := name;
                         password_hash := hash; embedding := None |} ])%list;
              last_id := new_id |})
  end.

Definition set_embedding (name : string) (value : option (list Q)) (u : User)
  : User :=
  if String.eqb (username u) name then
    {| id := id u; username := username u;
       password_hash := password_hash u; embedding := value |}
  else u.

Definition store_embedding (db : DB) (name : string) (vector : list Q) : DB :=
  {| users := map (set_embedding name (Some vector)) (users db);
     last_id := last_id db |}.

Definition revoke_embedding (db : DB) (name : string) : DB :=
  {| users := map (set_embedding name None) (users db);
     last_id := last_id db |}.

Definition get_embedding (db : DB) (name : string) : option (list Q) :=
  match get_user db name with
  | Some u => embedding u
  | None => None
  end.

(** User names are unique, ids are unique and none exceeds the sequence. *)
Definition well_formed (db : DB) : Prop :=
  NoDup (map username (users db))
  /\ NoDup (map id (users db))
  /\ Forall (fun u => (id u <= last_id db)%Z) (users db).

End Models.

(** ** [backend/auth.py] *)

Section Auth.

(** [hashlib.sha256(data).hexdigest()] *)
Variable sha256_hexdigest : string -> string.

(** [hash_password], given the salt that [secrets.token_hex(16)] draws *)
Definition hash_password (salt password : string) : string :=
  (salt ++ "$" ++ sha256_hexdigest (salt ++ password))%string.

Definition verify_password (plain_password hashed_password : string) : bool :=
  match PyStr.split_once "$" hashed_password with
  | Some (salt, stored_hash) =>
      String.eqb (sha256_hexdigest (salt ++ plain_password)) stored_hash
  | None => false
  end.

End Auth.

(** An error response of the endpoints below; [Caused] is a detail built
    from a prefix and the text of an exception. *)
Inductive ErrorInfo : Type :=
| Plain (msg : string)
| Caused (prefix : string) (e : Exception).

Record HTTPError : Type := {
  code : Z;
  info : ErrorInfo
}.

Record LoginOk : Type := {
  login_token : string;
  has_object : bool;
  needs_visual_auth : bool
}.

Record VisualLoginOk : Type := {
  visual_token : string;
  visual_user_id : Z
}.

Record EnrollOk : Type := {
  frames_extracted : nat;
  embedding_dim : nat
}.

Record RegisterOk : Type := {
  register_token : string;
  register_user_id : Z
}.

Record RegisterVisualOk : Type := {
  register_visual_token : string;
  register_visual_user_id : Z;
  register_visual_frames : nat;
  register_visual_embedding_dim : nat
}.

(** ** Stand-ins for the digest, the token and the table *)

Module StubAccounts.

(** A stand-in digest: the data itself. *)
Definition digest (data : string) : string := data.

Definition token_for (username : string) : string :=
  ("token-" ++ username)%string.

(** One user, alice, with password secret salted ab12 and an enrolled
    vector. *)
Definition db_alice : Models.DB :=
  {| Models.users :=
       [ {| Models.id := 1;
            Models.username := "alice";
            Models.password_hash := hash_password digest "ab12" "secret";
            Models.embedding := Some [3 # 5; 4 # 5] |} ];
     Models.last_id := 1 |}.

End StubAccounts.

Section Backend.

(** ** [backend/liveness.py] *)

Variables Frame Gray : Type.

(** [cv2.cvtColor(f, cv2.COLOR_BGR2GRAY)] *)
Variable cvtColor : Frame -> Gray.
(** [cv2.calcOpticalFlowFarneback] with the fixed parameters of the source *)
Variable calcOpticalFlowFarneback : Gray -> Gray -> Flow.
(** Square root on floats ([np.sqrt], the magnitude of [cv2.cartToPolar]) *)
Variable sqrt : Q -> Q.
(** [f"{x:.Nf}"] and [f"{x}"] on floats *)
Variable fmt_f : nat -> Q -> string.
Variable repr_float : Q -> string.

Fixpoint flow_pairs (gray_frames : list Gray) : Traced (Call Frame Gray) (list Flow) :=
  match gray_frames with
  | a :: (b :: _) as rest =>
      flow <- call (CallFarneback a b) (calcOpticalFlowFarneback a b) ;;
      flows <- flow_pairs rest ;;
      ret (flow :: flows)
  | _ => ret []
  end.

Definition compute_optical_flow (frames : list Frame) : Traced (Call Frame Gray) (list Flow) :=
  gray_frames <- mapT (fun f => call (CallCvtColor f) (cvtColor f)) frames ;;
  flow_pairs gray_frames.

(** The magnitude plane of [cv2.cartToPolar(flow[..., 0], flow[..., 1])],
    flattened row by row. *)
Definition magnitude (flow : Flow) : list Q :=
  map (fun p => sqrt (fst p * fst p + snd p * snd p)) (List.concat flow).

(** [np.std]: the root of the mean squared deviation. *)
Definition np_std (l : list Q) : Q :=
  let m := Np.mean l in
  sqrt (Np.mean (map (fun x => (x - m) * (x - m)) l)).

Definition compute_motion_magnitude (flows : list Flow) : MotionStats :=
  let magnitudes := map (fun flow => Np.mean (magnitude flow)) flows in
  if (List.length magnitudes =? 0)%nat then
    {| avg_magnitude := 0; max_magnitude := 0; std_magnitude := 0 |}
  else
    {| avg_magnitude := Np.mean magnitudes;
       max_magnitude := Np.amax magnitudes;
       std_magnitude := np_std magnitudes |}.

(** The pixels of a field with their [np.mgrid] coordinates [(y, x)]. *)
Definition pixels (flow : Flow) : list (Z * Z * (Q * Q)) :=
  List.concat
    (map (fun yr =>
            map (fun xp => (Z.of_nat (fst yr), Z.of_nat (fst xp), snd xp))
                (combine (seq 0 (List.length (snd yr))) (snd yr)))
         (combine (seq 0 (List.length flow)) flow)).

(** [flow.shape[:2]] *)
Definition shape (flow : Flow) : Z * Z :=
  (Z.of_nat (List.length flow),
   Z.of_nat (match flow with [] => 0 | row :: _ => List.length row end)).

(** The unit vector from the centre of the field to a pixel. *)
Definition radial_unit (flow : Flow) (y x : Z) : Q * Q :=
  let '(h, w) := shape flow in
  let cy := (h / 2)%Z in
  let cx := (w / 2)%Z in
  let vec_x := inject_Z (x - cx) in
  let vec_y := inject_Z (y - cy) in
  let norm := sqrt (vec_x * vec_x + vec_y * vec_y) + (1 # 100000000) in
  (vec_x / norm, vec_y / norm).

Definition radial_component (flow : Flow) : list Q :=
  map (fun px =>
         let '(y, x, (dx, dy)) := px in
         let '(vec_x, vec_y) := radial_unit flow y x in
         dx * vec_x + dy * vec_y)
      (pixels flow).

Definition tangential_component (flow : Flow) : list Q :=
  map (fun px =>
         let '(y, x, (dx, dy)) := px in
         let '(vec_x, vec_y) := radial_unit flow y x in
         dx * (- vec_y) + dy * vec_x)
      (pixels flow).

(** The four running sums of [detect_dominant_direction], field by field. *)
Definition accumulate (acc : DirectionInfo) (flow : Flow) : DirectionInfo :=
  {| horizontal := horizontal acc + Np.mean (map fst (List.concat flow));
     vertical := vertical acc + Np.mean (map snd (List.concat flow));
     expansion := expansion acc + Np.mean (radial_component flow);
     rotation := rotation acc + Np.mean (tangential_component flow) |}.

Definition detect_dominant_direction (flows : list Flow) : DirectionInfo :=
  let sums :=
    fold_left accumulate flows
      {| horizontal := 0; vertical := 0; expansion := 0; rotation := 0 |} in
  let n :=
    inject_Z (Z.of_nat (if (0 <? List.length flows)%nat
                        then List.length flows else 1%nat)) in
  {| horizontal := horizontal sums / n;
     vertical := vertical sums / n;
     expansion := expansion sums / n;
     rotation := rotation sums / n |}.

Definition check_liveness (frames : list Frame) (min_motion : Q)
  : Traced (Call Frame Gray) LivenessResult :=
  if (List.length frames <? 2)%nat then
    ret {| is_live := false;
           motion_score := 0;
           liveness_reason := "Insufficient frames for motion analysis" |}
  else
    flows <- compute_optical_flow frames ;;
    let motion_stats := compute_motion_magnitude flows in
    let avg_mag := avg_magnitude motion_stats in
    if Py.lt avg_mag min_motion then
      ret {| is_live := false;
             motion_score := Py.round avg_mag 3;
             liveness_reason :=
               "Static/replay detected — motion score " ++ fmt_f 3 avg_mag
               ++ " below threshold " ++ repr_float min_motion ++ ". "
               ++ "A real moving object should produce higher optical flow values." |}
    else
      ret {| is_live := true;
             motion_score := Py.round avg_mag 3;
             liveness_reason :=
               "Live motion detected — motion score " ++ fmt_f 3 avg_mag
               ++ " exceeds threshold " ++ repr_float min_motion |}.

(** The [scores] dict of [check_challenge_direction], in its order. *)
Definition direction_scores (direction_info : DirectionInfo) : Py.dict Q :=
  [ ("rotation", Py.abs (rotation direction_info));
    ("zoom_in", Py.max (expansion direction_info) 0);
    ("zoom_out", Py.max (- expansion direction_info) 0);
    ("left", Py.max (- horizontal direction_info) 0);
    ("right", Py.max (horizontal direction_info) 0) ]%string.

Definition round_info (d : DirectionInfo) : DirectionInfo :=
  {| horizontal := Py.round (horizontal d) 3;
     vertical := Py.round (vertical d) 3;
     expansion := Py.round (expansion d) 3;
     rotation := Py.round (rotation d) 3 |}.

Definition leniency_reason (detected : string) (conf : Q) (expected : string)
  : string :=
  "Motion detected (dominant: " ++ detected ++ ", confidence: "
  ++ fmt_f 3 conf ++ "). " ++ "Expected '" ++ expected
  ++ "' — accepted with MVP leniency.".

Definition matched_reason (detected : string) (conf : Q) : string :=
  "Challenge direction matched! Detected '" ++ detected
  ++ "' with confidence " ++ fmt_f 3 conf.

Definition mismatch_reason (detected : string) (conf : Q) (expected : string)
  : string :=
  "Direction mismatch or weak motion. Detected '" ++ detected
  ++ "' (confidence: " ++ fmt_f 3 conf ++ "), expected '" ++ expected ++ "'".

Definition check_challenge_direction
  (frames : list Frame) (expected_direction : string)
  (direction_threshold : Q) : Traced (Call Frame Gray) DirectionResult :=
  if (List.length frames <? 2)%nat then
    ret {| direction_match := false;
           detected_direction := "unknown";
           confidence := 0;
           direction_reason := "Insufficient frames for direction analysis";
           flow_details := None |}
  else
    flows <- compute_optical_flow frames ;;
    let direction_info := detect_dominant_direction flows in
    let scores := direction_scores direction_info in
    let detected :=
      match Py.max_key scores with Some k => k | None => EmptyString end in
    let conf := Py.get_or_zero scores detected in
    let match0 :=
      String.eqb detected expected_direction
      && Py.gt conf direction_threshold in
    let '(match1, reason) :=
      if negb match0 && Py.gt conf direction_threshold then
        (true, leniency_reason detected conf expected_direction)
      else if match0 then
        (match0, matched_reason detected conf)
      else
        (match0, mismatch_reason detected conf expected_direction) in
    ret {| direction_match := match1;
           detected_direction := detected;
           confidence := Py.round conf 3;
           direction_reason := reason;
           flow_details := Some (round_info direction_info) |}.


(** ** [backend/embedding_engine.py] *)

(** [frame_to_embedding]: the MobileNetV2 feature vector of a frame *)
Variable frame_to_embedding : Frame -> list Q.

(** [extract_frames] writes the upload to a temporary file and opens it
    with [cv2.VideoCapture]; the capture is all the function reads. *)
Definition extract_frames (video : Video Frame) (n_frames : nat)
  : Exception + list Frame :=
  if negb (isOpened video) then inl ValueError_could_not_open
  else
    let total_frames := frame_count video in
    if (total_frames <=? 0)%Z then
      let frames := read_all video in
      if (List.length frames =? 0)%nat then inl ValueError_no_frames
      else if (n_frames <? List.length frames)%nat then
        let indices :=
          Np.linspace_int (Z.of_nat (List.length frames) - 1) n_frames in
        match pick frames indices with
        | Some sampled => inr sampled
        | None => inl IndexError
        end
      else inr frames
    else
      let indices := Np.linspace_int (total_frames - 1) n_frames in
      let frames :=
        flat_map (fun idx => match read_at video idx with
                             | Some frame => [frame]
                             | None => []
                             end) indices in
      if (List.length frames =? 0)%nat then inl ValueError_no_frames
      else inr frames.

(** [np.mean(embeddings, axis=0)] on rows of one length: entry [j] is the
    mean of the [j]-th entries. *)
Definition mean_axis0 (embeddings : list (list Q)) : list Q :=
  match embeddings with
  | [] => []
  | e :: _ =>
      map (fun j => Np.mean (map (fun v => nth j v 0) embeddings))
          (seq 0 (List.length e))
  end.

(** [np.linalg.norm] of a vector *)
Definition linalg_norm (v : list Q) : Q :=
  sqrt (Np.sum (map (fun x => x * x) v)).

Definition eps : Q := 1 # 100000000.

Definition same_length (embeddings : list (list Q)) : bool :=
  match embeddings with
  | [] => true
  | e :: rest =>
      forallb (fun v => (List.length v =? List.length e)%nat) rest
  end.

Definition get_average_embedding (frames : list Frame)
  : Exception + list Q :=
  let embeddings := map frame_to_embedding frames in
  match embeddings with
  | [] => inl MeanOfEmptyIsNaN
  | _ :: _ =>
      if same_length embeddings then
        let avg := mean_axis0 embeddings in
        inr (map (fun x => x / (linalg_norm avg + eps)) avg)
      else inl ValueError_inhomogeneous_shape
  end.

Definition get_frame_embeddings (frames : list Frame) : list (list Q) :=
  map frame_to_embedding frames.

Definition dot (a b : list Q) : Q :=
  Np.sum (map (fun p => fst p * snd p) (combine a b)).

(** [sklearn.metrics.pairwise.cosine_similarity] on two single-row
    matrices: both rows are validated (at least one feature each, the same
    number of features), then [<a, b> / (||a|| * ||b||)] is returned. *)
Definition cosine_similarity (a b : list Q) : Exception + Q :=
  if (List.length a =? 0)%nat || (List.length b =? 0)%nat then
    inl ValueError_no_features
  else if negb (List.length a =? List.length b)%nat then
    inl (ValueError_incompatible_dimension (List.length a) (List.length b))
  else inr (dot a b / (linalg_norm a * linalg_norm b)).

Definition compute_similarity (emb1 emb2 : list Q) : Exception + Q :=
  cosine_similarity emb1 emb2.

(** ** [backend/main.py] *)

Definition SIMILARITY_THRESHOLD : Q := 60 # 100.
Definition LIVENESS_THRESHOLD : Q := 15 # 10.

(** The default [direction_threshold] of [check_challenge_direction] *)
Definition DIRECTION_THRESHOLD : Q := 3 # 10.

Definition mark (ok : bool) : string := if ok then "✓" else "✗".

(** [f"SP-{str(uuid.uuid4())[:8].upper()}"], given the text of the UUID
    drawn *)
Definition mint_session_id (uuid4 : string) : string :=
  "SP-" ++ Py.upper (substring 0 8 uuid4).

Definition rejection_reasons (is_live direction_match similarity_pass : bool)
  : list string :=
  ((if negb is_live then ["failed liveness (static/replay)"] else [])
   ++ (if negb direction_match then ["failed challenge direction"] else [])
   ++ (if negb similarity_pass then ["object mismatch"] else []))%list%string.

Definition internal_error (e : Exception) : HTTPException :=
  {| status_code := 500; detail := AuthenticationFailed e |}.

(** The body of the [authenticate] endpoint once the bearer token has
    been resolved to a user: [stored_emb] is what [get_embedding] returned
    for that user, [video] the capture opened on the upload and [uuid4]
    the text of the UUID that [uuid.uuid4()] draws. *)
Definition authenticate
  (stored_emb : option (list Q)) (challenge_id : string)
  (video : Video Frame) (uuid4 : string)
  : Traced (Call Frame Gray) (HTTPException + AuthResponse) :=
  match stored_emb with
  | None =>
      ret (inl {| status_code := 400;
                  detail := DetailText
                    "No object enrolled. Please enroll an object first." |})
  | Some stored =>
  match get_challenge_by_id challenge_id with
  | None =>
      ret (inl {| status_code := 400;
                  detail := DetailText "Invalid challenge ID" |})
  | Some challenge =>
  match extract_frames video 10 with
  | inl e => ret (inl (internal_error e))
  | inr frames =>
  let log1 :=
    ("✓ Extracted " ++ Py.str_nat (List.length frames)
     ++ " frames from video")%string in
  liveness_result <- check_liveness frames LIVENESS_THRESHOLD ;;
  let log2 :=
    (mark (is_live liveness_result) ++ " Liveness: "
     ++ liveness_reason liveness_result)%string in
  direction_result <-
    check_challenge_direction frames (expected_direction challenge)
      DIRECTION_THRESHOLD ;;
  let log3 :=
    (mark (direction_match direction_result) ++ " Direction: "
     ++ direction_reason direction_result)%string in
  match get_average_embedding frames with
  | inl e => ret (inl (internal_error e))
  | inr live_embedding =>
  match compute_similarity stored live_embedding with
  | inl e => ret (inl (internal_error e))
  | inr similarity =>
  let similarity_pass := Py.ge similarity SIMILARITY_THRESHOLD in
  let log4 :=
    (mark similarity_pass ++ " Similarity: " ++ fmt_f 4 similarity
     ++ " (threshold: " ++ repr_float SIMILARITY_THRESHOLD ++ ")")%string in
  let is_authenticated :=
    is_live liveness_result && direction_match direction_result
    && similarity_pass in
  let '(sid, log5) :=
    if is_authenticated then
      (Some (mint_session_id uuid4),
       "🟢 RESULT: AUTHENTICATED — All checks passed!"%string)
    else
      (None,
       ("🔴 RESULT: REJECTED — "
        ++ Py.join ", "
             (rejection_reasons (is_live liveness_result)
                (direction_match direction_result) similarity_pass))%string) in
  ret (inr
    {| success := true;
       authenticated := is_authenticated;
       session_id := sid;
       message := if is_authenticated then "AUTHENTICATED" else "REJECTED";
       details :=
         {| liveness :=
              {| liveness_passed := is_live liveness_result;
                 liveness_motion_score := motion_score liveness_result;
                 liveness_details_reason := liveness_reason liveness_result |};
            direction :=
              {| direction_passed := direction_match direction_result;
                 direction_detected := detected_direction direction_result;
                 direction_expected := expected_direction challenge;
                 direction_confidence := confidence direction_result;
                 direction_details_reason :=
                   direction_reason direction_result |};
            similarity :=
              {| similarity_passed := similarity_pass;
                 similarity_score := Py.round similarity 4;
                 similarity_threshold := SIMILARITY_THRESHOLD |};
            auth_log := [log1; log2; log3; log4; log5] |} |})
  end end end end end.

(** ** The specification's reading of the classifier and the decoder *)

(** The first key of [order] whose score no other key exceeds: the argmax
    with ties broken by the order of the list. *)
Definition argmax_first (order : list string) (score : string -> Q)
  : option string :=
  find (fun k => forallb (fun k' => Qle_bool (score k') (score k)) order)
       order.

(** The order of the [scores] dict. *)
Definition SCORES_ORDER : list string :=
  ["rotation"; "zoom_in"; "zoom_out"; "left"; "right"]%string.

(** The order the specification names for breaking ties. *)
Definition DECLARATION_ORDER : list string :=
  ["rotation"; "zoom_in"; "left"; "zoom_out"; "right"]%string.

(** [m] occurs in [l] and bounds it. *)
Definition is_maximum (m : Q) (l : list Q) : Prop :=
  In m l /\ Forall (fun v => v <= m) l.

(** The candidate scores of a frame sequence, as the classifier sees them. *)
Definition candidates (frames : list Frame) : Py.dict Q :=
  direction_scores
    (detect_dominant_direction (value (compute_optical_flow frames))).

(** The position in the stream of sample [i] out of [n], by truncation. *)
Definition floor_index (total n i : nat) : nat :=
  Z.to_nat ((Z.of_nat i * (Z.of_nat total - 1)) / (Z.of_nat n - 1)).



(** ** Vocabulary of the further properties *)

(** The pairs of neighbours of a list, in order. *)
Definition adjacent {A : Type} (l : list A) : list (A * A) :=
  combine l (tl l).

(** A field every displacement of which is exactly zero. *)
Definition zero_flow (flow : Flow) : Prop :=
  Forall (fun row => Forall (fun p => p = (0, 0)) row) flow.

(** ** [backend/main.py], the other endpoints

    Each endpoint is given the database it reads and, where it writes,
    returns the database it leaves; endpoints behind a bearer token are
    given the user the token resolves to.  [sha256_hexdigest] is the
    digest of [backend/auth.py] and [create_token] the JWT it issues to a
    user. *)

Definition VISUAL_ONLY : string := "VISUAL_ONLY_NO_PASSWORD".

Definition http_error (status : Z) (msg : string) : HTTPError :=
  {| code := status; info := Plain msg |}.

(** [register], given the salt drawn for the password hash *)
Definition register
  (sha256_hexdigest : string -> string) (create_token : string -> string)
  (db : Models.DB) (salt username password : string)
  : (HTTPError + RegisterOk) * Models.DB :=
  if ((PyStr.len username <? 3) || (PyStr.len password <? 4))%nat then
    (inl (http_error 400
            "Username (3+ chars) and password (4+ chars) required"), db)
  else
    let hashed := hash_password sha256_hexdigest salt password in
    match Models.create_user db username hashed with
    | inl (Models.UsernameExists name) =>
        (inl (http_error 409
                ("Username '" ++ name ++ "' already exists")), db)
    | inr (user_id, db') =>
        (inr {| register_token := create_token username;
                register_user_id := user_id |}, db')
    end.

Definition login
  (sha256_hexdigest : string -> string) (create_token : string -> string)
  (db : Models.DB) (username password : string)
  : HTTPError + LoginOk :=
  match Models.get_user db username with
  | None => inl (http_error 401 "Invalid username or password")
  | Some user =>
      if negb (verify_password sha256_hexdigest password
                 (Models.password_hash user)) then
        inl (http_error 401 "Invalid username or password")
      else
        let object_enrolled :=
          match Models.embedding user with Some _ => true | None => false end in
        inr {| login_token := create_token username;
               has_object := object_enrolled;
               needs_visual_auth := object_enrolled |}
  end.

(** [login_challenge], given the index drawn for the challenge *)
Definition login_challenge (db : Models.DB) (username : string) (drawn : nat)
  : HTTPError + option Challenge :=
  match Models.get_user db username with
  | None => inl (http_error 404 "User not found or visual key not enrolled")
  | Some user =>
      match Models.embedding user with
      | None =>
          inl (http_error 400
                 "No visual key enrolled. Please login with password first.")
      | Some _ => inr (get_random_challenge drawn)
      end
  end.

Definition visual_login_error : HTTPError :=
  http_error 500 "Internal server error during visual login".

Definition login_visual
  (create_token : string -> string) (db : Models.DB) (username challenge_id : string) (video : Video Frame)
  : Traced (Call Frame Gray) (HTTPError + VisualLoginOk) :=
  match Models.get_user db username with
  | None => ret (inl (http_error 401 "Invalid user or no visual key"))
  | Some user =>
  match Models.embedding user with
  | None => ret (inl (http_error 401 "Invalid user or no visual key"))
  | Some _ =>
  let stored_emb := Models.get_embedding db username in
  match get_challenge_by_id challenge_id with
  | None => ret (inl (http_error 400 "Invalid challenge ID"))
  | Some challenge =>
  match extract_frames video 10 with
  | inl _ => ret (inl visual_login_error)
  | inr frames =>
  liveness_result <- check_liveness frames LIVENESS_THRESHOLD ;;
  if negb (is_live liveness_result) then
    ret (inl (http_error 401
                ("Liveness failed: " ++ liveness_reason liveness_result)))
  else
  direction_result <-
    check_challenge_direction frames (expected_direction challenge)
      DIRECTION_THRESHOLD ;;
  if negb (direction_match direction_result) then
    ret (inl (http_error 401
                "Challenge failed: Movement direction did not match"))
  else
  match get_average_embedding frames with
  | inl _ => ret (inl visual_login_error)
  | inr live_embedding =>
  match stored_emb with
  | None => ret (inl visual_login_error)
  | Some stored =>
  match compute_similarity stored live_embedding with
  | inl _ => ret (inl visual_login_error)
  | inr similarity =>
  if Py.lt similarity SIMILARITY_THRESHOLD then
    ret (inl (http_error 401
                "Visual authentication failed: Object mismatch"))
  else
    ret (inr {| visual_token := create_token username;
                visual_user_id := Models.id user |})
  end end end end end end end.

(** [enroll_object], given the size in bytes of the upload *)
Definition enroll_object
  (db : Models.DB) (username : string) (video_size : nat)
  (video : Video Frame)
  : (HTTPError + EnrollOk) * Models.DB :=
  if (video_size <? 1000)%nat then
    (inl (http_error 400
            "Video file too small. Record at least 2 seconds."), db)
  else
    match extract_frames video 10 with
    | inl e => (inl {| code := 500; info := Caused "Enrollment failed: " e |},
                db)
    | inr frames =>
        match get_average_embedding frames with
        | inl e =>
            (inl {| code := 500; info := Caused "Enrollment failed: " e |},
             db)
        | inr avg_embedding =>
            (inr {| frames_extracted := List.length frames;
                    embedding_dim := List.length avg_embedding |},
             Models.store_embedding db username avg_embedding)
        end
    end.

Definition register_visual
  (create_token : string -> string) (db : Models.DB) (username : string) (video_size : nat)
  (video : Video Frame)
  : (HTTPError + RegisterVisualOk) * Models.DB :=
  if (PyStr.len username <? 3)%nat then
    (inl (http_error 400 "Username must be at least 3 characters"), db)
  else
    match Models.get_user db username with
    | Some _ => (inl (http_error 409 "Username already taken"), db)
    | None =>
        if (video_size <? 1000)%nat then
          (inl (http_error 400 "Video too small"), db)
        else
          match extract_frames video 10 with
          | inl e =>
              (inl {| code := 500; info := Caused "Registration failed: " e |},
               db)
          | inr frames =>
              match get_average_embedding frames with
              | inl e =>
                  (inl {| code := 500;
                          info := Caused "Registration failed: " e |}, db)
              | inr avg_embedding =>
                  match Models.create_user db username VISUAL_ONLY with
                  | inl (Models.UsernameExists name) =>
                      (inl (http_error 500
                              ("Registration failed: Username '" ++ name
                               ++ "' already exists")), db)
                  | inr (user_id, db1) =>
                      (inr {| register_visual_token := create_token username;
                              register_visual_user_id := user_id;
                              register_visual_frames := List.length frames;
                              register_visual_embedding_dim :=
                                List.length avg_embedding |},
                       Models.store_embedding db1 username avg_embedding)
                  end
              end
          end
    end.

(** [revoke_key] *)
Definition revoke_key (db : Models.DB) (username : string) : Models.DB :=
  Models.revoke_embedding db username.

(** ** Proofs *)

(** *** The trace monad *)

Lemma value_bind {C A B : Type} (m : Traced C A) (k : A -> Traced C B) :
  value (bind m k) = value (k (value m)).
Proof.
  unfold value, bind. destruct m as [a t1]. simpl.
  destruct (k a) as [b t2]. reflexivity.
Qed.

Lemma trace_bind {C A B : Type} (m : Traced C A) (k : A -> Traced C B) :
  trace (bind m k) = (trace m ++ trace (k (value m)))%list.
Proof.
  unfold trace, value, bind. destruct m as [a t1]. simpl.
  destruct (k a) as [b t2]. reflexivity.
Qed.

(** *** Comparisons and rounding *)

Lemma gt_true_iff (a b : Q) : Py.gt a b = true <-> b < a.
Proof.
  unfold Py.gt. rewrite negb_true_iff. split; intro H.
  - apply Qnot_le_lt. intro Hle. apply Qle_bool_iff in Hle. congruence.
  - destruct (Qle_bool a b) eqn:E; [|reflexivity].
    apply Qle_bool_iff in E. exfalso. exact (Qlt_not_le _ _ H E).
Qed.

Lemma gt_false_iff (a b : Q) : Py.gt a b = false <-> a <= b.
Proof.
  unfold Py.gt. rewrite negb_false_iff. apply Qle_bool_iff.
Qed.

Lemma max_zero_nonneg (a : Q) : 0 <= Py.max a 0.
Proof.
  unfold Py.max. destruct (Py.gt 0 a) eqn:E.
  - apply Qle_refl.
  - apply gt_false_iff in E. exact E.
Qed.

Lemma round_half_even_nonneg (x : Q) : 0 <= x -> (0 <= Py.round_half_even x)%Z.
Proof.
  intro Hx. unfold Py.round_half_even.
  assert (Hf : (0 <= Qfloor x)%Z).
  { change 0%Z with (Qfloor 0). apply Qfloor_resp_le. exact Hx. }
  destruct (x - inject_Z (Qfloor x) ?= 1 # 2); try lia.
  destruct (Z.even (Qfloor x)); lia.
Qed.

Lemma round_nonneg (x : Q) (n : nat) : 0 <= x -> 0 <= Py.round x n.
Proof.
  intro Hx. unfold Py.round.
  assert (Hs : (0 < 10 ^ Z.of_nat n)%Z) by (apply Z.pow_pos_nonneg; lia).
  assert (Hq : 0 < inject_Z (10 ^ Z.of_nat n)).
  { change 0 with (inject_Z 0). rewrite <- Zlt_Qlt. exact Hs. }
  apply Qle_shift_div_l; [exact Hq|].
  rewrite Qmult_0_l.
  change 0 with (inject_Z 0). rewrite <- Zle_Qle.
  apply round_half_even_nonneg.
  apply Qmult_le_0_compat; [exact Hx | apply Qlt_le_weak; exact Hq].
Qed.

(** *** The first maximum *)

Lemma max_by_split (score : string -> Q) :
  forall rest l1 best l2,
    (forall x, In x l1 -> score x < score best) ->
    (forall x, In x l2 -> score x <= score best) ->
    exists p1 p2,
      (l1 ++ best :: l2 ++ rest)%list
      = (p1 ++ Py.max_by score best rest :: p2)%list
      /\ (forall x, In x p1 -> score x < score (Py.max_by score best rest))
      /\ (forall x, In x p2 -> score x <= score (Py.max_by score best rest)).
Proof.
  induction rest as [|k rest IH]; intros l1 best l2 H1 H2; simpl.
  - exists l1, l2. rewrite app_nil_r. auto.
  - destruct (Py.gt (score k) (score best)) eqn:E.
    + apply gt_true_iff in E.
      destruct (IH (l1 ++ best :: l2)%list k []) as (p1 & p2 & Heq & Hp1 & Hp2).
      * intros x Hx. apply in_app_or in Hx. destruct Hx as [Hx|[Hx|Hx]].
        -- eapply Qlt_trans; [apply H1; exact Hx | exact E].
        -- subst x. exact E.
        -- eapply Qle_lt_trans; [apply H2; exact Hx | exact E].
      * intros x [].
      * exists p1, p2. split; [|auto].
        rewrite <- Heq. simpl. rewrite <- app_assoc. reflexivity.
    + apply gt_false_iff in E.
      destruct (IH l1 best (l2 ++ [k])%list) as (p1 & p2 & Heq & Hp1 & Hp2).
      * exact H1.
      * intros x Hx. apply in_app_or in Hx. destruct Hx as [Hx|[Hx|[]]].
        -- apply H2; exact Hx.
        -- subst x. exact E.
      * exists p1, p2. split; [|auto].
        rewrite <- Heq. rewrite <- app_assoc. reflexivity.
Qed.

Lemma argmax_first_split (score : string -> Q) (p1 p2 : list string) (r : string) :
  (forall x, In x p1 -> score x < score r) ->
  (forall x, In x p2 -> score x <= score r) ->
  argmax_first (p1 ++ r :: p2) score = Some r.
Proof.
  intros H1 H2. unfold argmax_first.
  set (order := (p1 ++ r :: p2)%list).
  assert (Hr : In r order) by (apply in_or_app; right; left; reflexivity).
  assert (Hgo : forall q, (forall x, In x q -> score x < score r) ->
    find (fun k => forallb (fun k' => Qle_bool (score k') (score k)) order)
         (q ++ r :: p2) = Some r).
  { induction q as [|x q IH]; intro Hq; simpl.
    - replace (forallb (fun k' => Qle_bool (score k') (score r)) order)
        with true; [reflexivity|].
      symmetry. apply forallb_forall. intros x Hx.
      apply Qle_bool_iff. unfold order in Hx.
      apply in_app_or in Hx. destruct Hx as [Hx|[Hx|Hx]].
      + apply Qlt_le_weak, H1, Hx.
      + subst x. apply Qle_refl.
      + apply H2, Hx.
    - replace (forallb (fun k' => Qle_bool (score k') (score x)) order)
        with false.
      + apply IH. intros y Hy. apply Hq. right. exact Hy.
      + symmetry. apply not_true_is_false. intro Hall.
        rewrite forallb_forall in Hall. specialize (Hall r Hr).
        apply Qle_bool_iff in Hall.
        apply (Qlt_not_le _ _ (Hq x (or_introl eq_refl))). exact Hall. }
  apply Hgo. exact H1.
Qed.

Lemma max_by_argmax_first (score : string -> Q) (k : string) (ks : list string) :
  argmax_first (k :: ks) score = Some (Py.max_by score k ks).
Proof.
  destruct (max_by_split score ks [] k []) as (p1 & p2 & Heq & Hp1 & Hp2).
  - intros x [].
  - intros x [].
  - simpl in Heq. rewrite Heq. apply argmax_first_split; assumption.
Qed.

Lemma max_by_in (score : string -> Q) :
  forall ks k, In (Py.max_by score k ks) (k :: ks).
Proof.
  induction ks as [|x ks IH]; intro k; simpl.
  - left. reflexivity.
  - destruct (IH (if Py.gt (score x) (score k) then x else k)) as [H|H].
    + destruct (Py.gt (score x) (score k)); rewrite <- H; auto.
    + right. right. exact H.
Qed.

Lemma max_by_bounds (score : string -> Q) (k : string) (ks : list string) :
  forall x, In x (k :: ks) -> score x <= score (Py.max_by score k ks).
Proof.
  destruct (max_by_split score ks [] k []) as (p1 & p2 & Heq & Hp1 & Hp2).
  - intros x [].
  - intros x [].
  - simpl in Heq. rewrite Heq. intros x Hx.
    apply in_app_or in Hx. destruct Hx as [Hx|[Hx|Hx]].
    + apply Qlt_le_weak, Hp1, Hx.
    + subst x. apply Qle_refl.
    + apply Hp2, Hx.
Qed.

(** *** The direction classifier on two or more frames *)

Lemma enough_frames (frames : list Frame) :
  (2 <= List.length frames)%nat -> (List.length frames <? 2)%nat = false.
Proof. intro H. apply Nat.ltb_ge. exact H. Qed.

Lemma direction_fields (frames : list Frame) (expected : string) (thr : Q) :
  (2 <= List.length frames)%nat ->
  let r := value (check_challenge_direction frames expected thr) in
  let scores := candidates frames in
  let conf := Py.get_or_zero scores (detected_direction r) in
  detected_direction r
  = Py.max_by (Py.get_or_zero scores) "rotation"
      ["zoom_in"; "zoom_out"; "left"; "right"]%string
  /\ confidence r = Py.round conf 3
  /\ direction_match r = Py.gt conf thr
  /\ direction_reason r
     = (if Py.gt conf thr then
          if String.eqb (detected_direction r) expected
          then matched_reason (detected_direction r) conf
          else leniency_reason (detected_direction r) conf expected
        else mismatch_reason (detected_direction r) conf expected).
Proof.
  intro Hlen. unfold check_challenge_direction.
  rewrite (enough_frames frames Hlen). rewrite value_bind.
  fold (candidates frames).
  change (Py.max_key (candidates frames))
    with (Some (Py.max_by (Py.get_or_zero (candidates frames)) "rotation"
                  ["zoom_in"; "zoom_out"; "left"; "right"]%string)).
  cbv zeta.
  set (detected := Py.max_by _ _ _).
  set (conf := Py.get_or_zero _ detected).
  destruct (String.eqb detected expected) eqn:Ed;
    destruct (Py.gt conf thr) eqn:Ec; cbn [andb negb value fst ret
      detected_direction confidence direction_match direction_reason];
    fold conf; rewrite ?Ed, ?Ec; repeat split; reflexivity.
Qed.

Lemma candidates_nonneg (frames : list Frame) :
  Forall (fun v => 0 <= v) (map snd (candidates frames)).
Proof.
  unfold candidates, direction_scores. cbn [map snd].
  repeat constructor; try apply max_zero_nonneg.
  apply Qabs_nonneg.
Qed.

Lemma detected_in_scores_order (frames : list Frame) :
  In (Py.max_by (Py.get_or_zero (candidates frames)) "rotation"
        ["zoom_in"; "zoom_out"; "left"; "right"]%string) SCORES_ORDER.
Proof. apply max_by_in. Qed.

Lemma get_or_zero_candidates (frames : list Frame) (k : string) :
  In k SCORES_ORDER ->
  In (Py.get_or_zero (candidates frames) k) (map snd (candidates frames)).
Proof.
  unfold SCORES_ORDER, candidates, direction_scores.
  intros [H|[H|[H|[H|[H|[]]]]]]; subst k; cbn; auto 6.
Qed.

Lemma dominant_is_maximum (frames : list Frame) :
  is_maximum
    (Py.get_or_zero (candidates frames)
       (Py.max_by (Py.get_or_zero (candidates frames)) "rotation"
          ["zoom_in"; "zoom_out"; "left"; "right"]%string))
    (map snd (candidates frames)).
Proof.
  split.
  - apply get_or_zero_candidates, detected_in_scores_order.
  - pose proof (max_by_bounds (Py.get_or_zero (candidates frames)) "rotation"
                  ["zoom_in"; "zoom_out"; "left"; "right"]%string) as Hb.
    unfold candidates, direction_scores in *. cbn [map snd].
    repeat constructor.
    + apply (Hb "rotation"%string). simpl; auto.
    + apply (Hb "zoom_in"%string). simpl; auto.
    + apply (Hb "zoom_out"%string). simpl; auto.
    + apply (Hb "left"%string). simpl; auto 6.
    + apply (Hb "right"%string). simpl; auto 6.
Qed.

Lemma reasons_distinct (d c e d' c' e' : _) :
  leniency_reason d c e <> matched_reason d' c'
  /\ leniency_reason d c e <> mismatch_reason d' c' e'
  /\ matched_reason d c <> mismatch_reason d' c' e'.
Proof.
  unfold leniency_reason, matched_reason, mismatch_reason.
  repeat split; cbn [append]; discriminate.
Qed.

(** C2.  On two or more frames the direction check passes exactly when the
    largest candidate score exceeds the threshold: with the detected
    direction equal to the expected one it passes under the matched
    reason, with a different detected direction it passes all the same
    under the leniency reason, and it fails, under the mismatch reason,
    exactly when the score is at most the threshold.  The three reasons
    are pairwise different texts. *)
Theorem direction_passes_iff_confident
  (frames : list Frame) (expected : string) (thr : Q) :
  (2 <= List.length frames)%nat ->
  let r := value (check_challenge_direction frames expected thr) in
  let detected := detected_direction r in
  let conf := Py.get_or_zero (candidates frames) detected in
  is_maximum conf (map snd (candidates frames))
  /\ (direction_match r = true <-> thr < conf)
  /\ (thr < conf -> detected = expected ->
      direction_match r = true
      /\ direction_reason r = matched_reason detected conf)
  /\ (thr < conf -> detected <> expected ->
      direction_match r = true
      /\ direction_reason r = leniency_reason detected conf expected)
  /\ (conf <= thr ->
      direction_match r = false
      /\ direction_reason r = mismatch_reason detected conf expected)
  /\ (forall d c e d' c' e',
        leniency_reason d c e <> matched_reason d' c'
        /\ leniency_reason d c e <> mismatch_reason d' c' e').
Proof.
  intros Hlen r detected conf.
  destruct (direction_fields frames expected thr Hlen)
    as (Hdet & _ & Hmatch & Hreason).
  fold r in Hdet, Hmatch, Hreason. fold detected in Hdet, Hmatch, Hreason.
  fold conf in Hmatch, Hreason.
  split; [|split; [|split; [|split; [|split]]]].
  - unfold conf. rewrite Hdet. apply dominant_is_maximum.
  - rewrite Hmatch. apply gt_true_iff.
  - intros Hc He. apply gt_true_iff in Hc.
    rewrite Hmatch, Hreason, Hc.
    apply String.eqb_eq in He. rewrite He. split; reflexivity.
  - intros Hc He. apply gt_true_iff in Hc.
    rewrite Hmatch, Hreason, Hc.
    apply String.eqb_neq in He. rewrite He. split; reflexivity.
  - intros Hc. apply gt_false_iff in Hc.
    rewrite Hmatch, Hreason, Hc. split; reflexivity.
  - intros d c e d' c' e'.
    destruct (reasons_distinct d c e d' c' e') as (H1 & H2 & _).
    split; assumption.
Qed.

(** C3, as the code has it.  On two or more frames the detected direction
    is the argmax over the five non-negative candidates
    rotation = |rotation|, zoom_in = max(expansion, 0),
    zoom_out = max(-expansion, 0), left = max(-horizontal, 0) and
    right = max(horizontal, 0), with ties broken by the order of the
    scores, rotation, zoom_in, zoom_out, left, right; the value compared
    with the threshold is that largest candidate, and the confidence of
    the returned verdict is that value rounded to three decimals. *)
Theorem detected_direction_first_maximum
  (frames : list Frame) (expected : string) (thr : Q) :
  (2 <= List.length frames)%nat ->
  let r := value (check_challenge_direction frames expected thr) in
  let info :=
    detect_dominant_direction (value (compute_optical_flow frames)) in
  let scores := candidates frames in
  let conf := Py.get_or_zero scores (detected_direction r) in
  scores
  = [ ("rotation", Py.abs (rotation info));
      ("zoom_in", Py.max (expansion info) 0);
      ("zoom_out", Py.max (- expansion info) 0);
      ("left", Py.max (- horizontal info) 0);
      ("right", Py.max (horizontal info) 0) ]%string
  /\ argmax_first SCORES_ORDER (Py.get_or_zero scores)
     = Some (detected_direction r)
  /\ is_maximum conf (map snd scores)
  /\ direction_match r = Py.gt conf thr
  /\ confidence r = Py.round conf 3.
Proof.
  intros Hlen r info scores conf.
  destruct (direction_fields frames expected thr Hlen)
    as (Hdet & Hconf & Hmatch & _).
  fold r in Hdet, Hconf, Hmatch. fold scores in Hdet, Hconf, Hmatch.
  fold conf in Hconf, Hmatch.
  split; [reflexivity|]. split; [|split; [|split]].
  - rewrite Hdet. unfold SCORES_ORDER. apply max_by_argmax_first.
  - unfold conf. rewrite Hdet. apply dominant_is_maximum.
  - exact Hmatch.
  - exact Hconf.
Qed.

(** C10.  Whatever the frames, the confidence of the direction verdict is
    non-negative and every candidate score is non-negative; the detected
    direction is one of rotation, zoom_in, zoom_out, left and right on two
    or more frames, and the text unknown on fewer. *)
Theorem direction_verdict_range
  (frames : list Frame) (expected : string) (thr : Q) :
  let r := value (check_challenge_direction frames expected thr) in
  0 <= confidence r
  /\ Forall (fun v => 0 <= v) (map snd (candidates frames))
  /\ (if (List.length frames <? 2)%nat
      then detected_direction r = "unknown"%string
      else In (detected_direction r)
             ["rotation"; "zoom_in"; "zoom_out"; "left"; "right"]%string).
Proof.
  intro r. subst r.
  destruct (List.length frames <? 2)%nat eqn:E.
  - unfold check_challenge_direction. rewrite E. cbn.
    split; [apply Qle_refl|]. split; [apply candidates_nonneg | reflexivity].
  - apply Nat.ltb_ge in E.
    destruct (direction_fields frames expected thr E) as (Hdet & Hconf & _).
    split; [|split].
    + rewrite Hconf. apply round_nonneg.
      pose proof (candidates_nonneg frames) as Hall.
      rewrite Forall_forall in Hall. apply Hall.
      rewrite Hdet. apply (proj1 (dominant_is_maximum frames)).
    + apply candidates_nonneg.
    + rewrite Hdet. apply detected_in_scores_order.
Qed.

(** *** Fewer than two frames *)

Lemma check_liveness_few (frames : list Frame) (min_motion : Q) :
  (List.length frames < 2)%nat ->
  check_liveness frames min_motion
  = ({| is_live := false;
        motion_score := 0;
        liveness_reason := "Insufficient frames for motion analysis" |}, []).
Proof.
  intro H. apply Nat.ltb_lt in H. unfold check_liveness. rewrite H.
  reflexivity.
Qed.

Lemma check_challenge_direction_few
  (frames : list Frame) (expected : string) (thr : Q) :
  (List.length frames < 2)%nat ->
  check_challenge_direction frames expected thr
  = ({| direction_match := false;
        detected_direction := "unknown";
        confidence := 0;
        direction_reason := "Insufficient frames for direction analysis";
        flow_details := None |}, []).
Proof.
  intro H. apply Nat.ltb_lt in H. unfold check_challenge_direction.
  rewrite H. reflexivity.
Qed.

(** *** The endpoint *)

(** What a response of [authenticate] is made of. *)
Lemma authenticate_ok_inv
  (stored_emb : option (list Q)) (cid : string) (video : Video Frame)
  (uuid4 : string) (resp : AuthResponse) :
  value (authenticate stored_emb cid video uuid4) = inr resp ->
  exists stored challenge frames live sim,
    stored_emb = Some stored
    /\ get_challenge_by_id cid = Some challenge
    /\ extract_frames video 10 = inr frames
    /\ get_average_embedding frames = inr live
    /\ compute_similarity stored live = inr sim
    /\ success resp = true
    /\ authenticated resp
       = is_live (value (check_liveness frames LIVENESS_THRESHOLD))
         && direction_match
              (value (check_challenge_direction frames
                        (expected_direction challenge) DIRECTION_THRESHOLD))
         && Py.ge sim SIMILARITY_THRESHOLD
    /\ session_id resp
       = (if authenticated resp then Some (mint_session_id uuid4) else None)
    /\ message resp
       = (if authenticated resp then "AUTHENTICATED" else "REJECTED")%string
    /\ liveness (details resp)
       = (let lr := value (check_liveness frames LIVENESS_THRESHOLD) in
          {| liveness_passed := is_live lr;
             liveness_motion_score := motion_score lr;
             liveness_details_reason := liveness_reason lr |})
    /\ direction (details resp)
       = (let dr := value (check_challenge_direction frames
                             (expected_direction challenge)
                             DIRECTION_THRESHOLD) in
          {| direction_passed := direction_match dr;
             direction_detected := detected_direction dr;
             direction_expected := expected_direction challenge;
             direction_confidence := confidence dr;
             direction_details_reason := direction_reason dr |})
    /\ similarity (details resp)
       = {| similarity_passed := Py.ge sim SIMILARITY_THRESHOLD;
            similarity_score := Py.round sim 4;
            similarity_threshold := SIMILARITY_THRESHOLD |}.
Proof.
  unfold authenticate. intro H.
  destruct stored_emb as [stored|]; [|discriminate H].
  destruct (get_challenge_by_id cid) as [challenge|] eqn:Hc;
    [|discriminate H].
  destruct (extract_frames video 10) as [e|frames] eqn:Hf; [discriminate H|].
  rewrite !value_bind in H.
  destruct (get_average_embedding frames) as [e|live] eqn:Hl;
    [discriminate H|].
  destruct (compute_similarity stored live) as [e|sim] eqn:Hs;
    [discriminate H|].
  exists stored, challenge, frames, live, sim.
  cbv zeta in H.
  destruct (is_live _ && direction_match _ && Py.ge sim SIMILARITY_THRESHOLD)
    eqn:E; cbn [value ret fst] in H; injection H as <-;
    cbn [success authenticated session_id message details liveness direction
         similarity]; rewrite ?E; repeat split;
    first [assumption | reflexivity].
Qed.

(** A response is what [authenticate] returns once every stage ran. *)
Lemma authenticate_ok
  (stored : list Q) (cid : string) (video : Video Frame) (uuid4 : string)
  (challenge : Challenge) (frames : list Frame) (live : list Q) (sim : Q) :
  get_challenge_by_id cid = Some challenge ->
  extract_frames video 10 = inr frames ->
  get_average_embedding frames = inr live ->
  compute_similarity stored live = inr sim ->
  exists resp, value (authenticate (Some stored) cid video uuid4) = inr resp.
Proof.
  intros Hc Hf Hl Hs. unfold authenticate. rewrite Hc, Hf.
  rewrite !value_bind. rewrite Hl, Hs. cbv zeta.
  destruct (is_live _ && direction_match _ && Py.ge sim SIMILARITY_THRESHOLD);
    cbn [value ret fst]; eexists; reflexivity.
Qed.

(** An exception of the similarity stage becomes a 500 response. *)
Lemma authenticate_similarity_fault
  (stored : list Q) (cid : string) (video : Video Frame) (uuid4 : string)
  (challenge : Challenge) (frames : list Frame) (live : list Q)
  (e : Exception) :
  get_challenge_by_id cid = Some challenge ->
  extract_frames video 10 = inr frames ->
  get_average_embedding frames = inr live ->
  compute_similarity stored live = inl e ->
  value (authenticate (Some stored) cid video uuid4)
  = inl {| status_code := 500; detail := AuthenticationFailed e |}.
Proof.
  intros Hc Hf Hl Hs. unfold authenticate. rewrite Hc, Hf.
  rewrite !value_bind. rewrite Hl, Hs. reflexivity.
Qed.

Lemma authenticate_trace_few
  (stored_emb : option (list Q)) (cid : string) (video : Video Frame)
  (uuid4 : string) (frames : list Frame) :
  extract_frames video 10 = inr frames ->
  (List.length frames < 2)%nat ->
  trace (authenticate stored_emb cid video uuid4) = [].
Proof.
  intros Hf Hlen. unfold authenticate.
  destruct stored_emb as [stored|]; [|reflexivity].
  destruct (get_challenge_by_id cid) as [challenge|]; [|reflexivity].
  rewrite Hf. rewrite !trace_bind.
  rewrite (check_liveness_few frames _ Hlen).
  rewrite (check_challenge_direction_few frames _ _ Hlen).
  cbn [trace value fst snd app].
  destruct (get_average_embedding frames) as [e|live]; [reflexivity|].
  destruct (compute_similarity stored live) as [e|sim]; [reflexivity|].
  reflexivity.
Qed.

(** C1.  In every response of [authenticate] the flag [authenticated] is
    true exactly when the liveness, direction and similarity verdicts all
    pass, those being the verdicts of the three checks on the extracted
    frames, and a session identifier is present exactly when
    [authenticated] is true. *)
Theorem authenticated_iff_all_pass
  (stored_emb : option (list Q)) (cid : string) (video : Video Frame)
  (uuid4 : string) (resp : AuthResponse) :
  value (authenticate stored_emb cid video uuid4) = inr resp ->
  let d := details resp in
  (authenticated resp = true <->
   liveness_passed (liveness d) = true
   /\ direction_passed (direction d) = true
   /\ similarity_passed (similarity d) = true)
  /\ (authenticated resp = true <-> exists sid, session_id resp = Some sid)
  /\ (authenticated resp = false <-> session_id resp = None)
  /\ exists stored challenge frames live sim,
       stored_emb = Some stored
       /\ get_challenge_by_id cid = Some challenge
       /\ extract_frames video 10 = inr frames
       /\ get_average_embedding frames = inr live
       /\ compute_similarity stored live = inr sim
       /\ liveness_passed (liveness d)
          = is_live (value (check_liveness frames LIVENESS_THRESHOLD))
       /\ direction_passed (direction d)
          = direction_match
              (value (check_challenge_direction frames
                        (expected_direction challenge) DIRECTION_THRESHOLD))
       /\ similarity_passed (similarity d) = Py.ge sim SIMILARITY_THRESHOLD.
Proof.
  intros H d.
  destruct (authenticate_ok_inv _ _ _ _ _ H)
    as (stored & challenge & frames & live & sim & Hs & Hc & Hf & Hl & Hsim
        & _ & Hauth & Hsid & _ & Hlv & Hdir & Hsm).
  fold d in Hlv, Hdir, Hsm.
  split; [|split; [|split]].
  - rewrite Hauth, Hlv, Hdir, Hsm. cbn.
    rewrite !andb_true_iff. tauto.
  - rewrite Hsid. destruct (authenticated resp); split.
    + intros _. eexists. reflexivity.
    + reflexivity.
    + discriminate.
    + intros [sid Hsome]. discriminate Hsome.
  - rewrite Hsid. destruct (authenticated resp); split;
      try reflexivity; discriminate.
  - exists stored, challenge, frames, live, sim.
    rewrite Hlv, Hdir, Hsm. cbn. repeat split; assumption.
Qed.

(** C4.  When the stored vector and the vector computed from the frames
    differ in length, [authenticate] returns no verdict: the similarity
    stage raises, and the call fails with status 500 carrying that
    exception, which for two non-empty vectors is the incompatible
    dimension error naming both lengths. *)
Theorem dimension_mismatch_is_fault
  (stored : list Q) (cid : string) (video : Video Frame) (uuid4 : string)
  (challenge : Challenge) (frames : list Frame) (live : list Q) :
  get_challenge_by_id cid = Some challenge ->
  extract_frames video 10 = inr frames ->
  get_average_embedding frames = inr live ->
  List.length stored <> List.length live ->
  exists e,
    compute_similarity stored live = inl e
    /\ value (authenticate (Some stored) cid video uuid4)
       = inl {| status_code := 500; detail := AuthenticationFailed e |}
    /\ (stored <> [] -> live <> [] ->
        e = ValueError_incompatible_dimension
              (List.length stored) (List.length live)).
Proof.
  intros Hc Hf Hl Hne.
  assert (Hsim : exists e, compute_similarity stored live = inl e
            /\ (stored <> [] -> live <> [] ->
                e = ValueError_incompatible_dimension
                      (List.length stored) (List.length live))).
  { unfold compute_similarity, cosine_similarity.
    destruct stored as [|s stored']; [eexists; split; [reflexivity|tauto]|].
    destruct live as [|l live']; [eexists; split; [reflexivity|tauto]|].
    cbn [orb Nat.eqb List.length].
    destruct (Nat.eqb_spec (List.length stored') (List.length live'))
      as [Heq|Hneq].
    - exfalso. apply Hne. simpl. rewrite Heq. reflexivity.
    - eexists. split; [reflexivity|]. intros _ _. reflexivity. }
  destruct Hsim as (e & He & Hkind).
  exists e. split; [exact He|]. split; [|exact Hkind].
  apply (authenticate_similarity_fault stored cid video uuid4
           challenge frames live e); assumption.
Qed.

(** C5.  On fewer than two frames the liveness check returns the negative
    verdict with motion score 0 and the insufficient-frames reason, the
    direction check returns the negative verdict with detected direction
    unknown and confidence 0, and neither calls the vision library; a run
    of [authenticate] on such frames makes no call either, and any
    response it returns carries these verdicts and is not authenticated. *)
Theorem insufficient_frames_negative
  (frames : list Frame) (min_motion : Q) (expected : string) (thr : Q) :
  (List.length frames < 2)%nat ->
  check_liveness frames min_motion
  = ({| is_live := false;
        motion_score := 0;
        liveness_reason := "Insufficient frames for motion analysis" |}, [])
  /\ check_challenge_direction frames expected thr
     = ({| direction_match := false;
           detected_direction := "unknown";
           confidence := 0;
           direction_reason := "Insufficient frames for direction analysis";
           flow_details := None |}, [])
  /\ forall stored_emb cid video uuid4,
       extract_frames video 10 = inr frames ->
       trace (authenticate stored_emb cid video uuid4) = []
       /\ forall resp,
            value (authenticate stored_emb cid video uuid4) = inr resp ->
            authenticated resp = false
            /\ liveness_passed (liveness (details resp)) = false
            /\ liveness_motion_score (liveness (details resp)) = 0
            /\ direction_passed (direction (details resp)) = false
            /\ direction_detected (direction (details resp))
               = "unknown"%string
            /\ direction_confidence (direction (details resp)) = 0.
Proof.
  intro Hlen. split; [apply check_liveness_few; exact Hlen|].
  split; [apply check_challenge_direction_few; exact Hlen|].
  intros stored_emb cid video uuid4 Hf.
  split; [eapply authenticate_trace_few; eassumption|].
  intros resp H.
  destruct (authenticate_ok_inv _ _ _ _ _ H)
    as (stored & challenge & frames' & live & sim & _ & _ & Hf' & _ & _
        & _ & Hauth & _ & _ & Hlv & Hdir & _).
  rewrite Hf in Hf'. injection Hf' as <-.
  rewrite (check_liveness_few frames _ Hlen) in Hauth, Hlv.
  rewrite (check_challenge_direction_few frames _ _ Hlen) in Hdir.
  rewrite Hauth, Hlv, Hdir. cbn. repeat split; reflexivity.
Qed.

Lemma compute_similarity_ok_inv (a b : list Q) (sim : Q) :
  compute_similarity a b = inr sim ->
  List.length a = List.length b
  /\ sim = dot a b / (linalg_norm a * linalg_norm b).
Proof.
  unfold compute_similarity, cosine_similarity. intro H.
  destruct ((List.length a =? 0)%nat || (List.length b =? 0)%nat);
    [discriminate H|].
  destruct (Nat.eqb_spec (List.length a) (List.length b)) as [Heq|Hneq];
    cbn [negb] in H; [|discriminate H].
  injection H as <-. split; [exact Heq | reflexivity].
Qed.

(** C7.  Whenever [authenticate] returns a response, the stored and the
    fresh vector have one length, the similarity is their cosine, and the
    similarity verdict passes exactly when the similarity is at least the
    threshold 0.60; in particular a similarity equal to 0.60 passes. *)
Theorem similarity_passes_iff_at_least_threshold
  (stored_emb : option (list Q)) (cid : string) (video : Video Frame)
  (uuid4 : string) (resp : AuthResponse) :
  value (authenticate stored_emb cid video uuid4) = inr resp ->
  exists stored frames live sim,
    stored_emb = Some stored
    /\ extract_frames video 10 = inr frames
    /\ get_average_embedding frames = inr live
    /\ List.length stored = List.length live
    /\ compute_similarity stored live = inr sim
    /\ sim = dot stored live / (linalg_norm stored * linalg_norm live)
    /\ similarity_threshold (similarity (details resp)) = 60 # 100
    /\ (similarity_passed (similarity (details resp)) = true
        <-> 60 # 100 <= sim)
    /\ (sim == 60 # 100 ->
        similarity_passed (similarity (details resp)) = true).
Proof.
  intro H.
  destruct (authenticate_ok_inv _ _ _ _ _ H)
    as (stored & challenge & frames & live & sim & Hs & _ & Hf & Hl & Hsim
        & _ & _ & _ & _ & _ & _ & Hsm).
  destruct (compute_similarity_ok_inv _ _ _ Hsim) as (Hlen & Hcos).
  exists stored, frames, live, sim.
  rewrite Hsm. cbn [similarity_passed similarity_threshold].
  unfold Py.ge, SIMILARITY_THRESHOLD.
  repeat split; try assumption.
  - apply Qle_bool_iff.
  - apply Qle_bool_iff.
  - intro Heq. apply Qle_bool_iff. rewrite Heq. apply Qle_refl.
Qed.

(** C6, as the code has it.  Two runs of [authenticate] on the same
    stored vector, challenge and video make the same calls and either
    fail with the same fault or return responses that agree on
    [success], [authenticated], [message] and every verdict and log line
    of [details]; the session identifier of each is minted from the UUID
    that run drew when [authenticated] is true and is absent otherwise,
    so that two rejections are equal in every field. *)
Theorem authenticate_deterministic_up_to_session_id
  (stored_emb : option (list Q)) (cid : string) (video : Video Frame)
  (u1 u2 : string) :
  trace (authenticate stored_emb cid video u1)
  = trace (authenticate stored_emb cid video u2)
  /\ match value (authenticate stored_emb cid video u1),
           value (authenticate stored_emb cid video u2) with
     | inl e1, inl e2 => e1 = e2
     | inr r1, inr r2 =>
         success r1 = success r2
         /\ authenticated r1 = authenticated r2
         /\ message r1 = message r2
         /\ details r1 = details r2
         /\ session_id r1
            = (if authenticated r1 then Some (mint_session_id u1) else None)
         /\ session_id r2
            = (if authenticated r2 then Some (mint_session_id u2) else None)
         /\ (authenticated r1 = false -> r1 = r2)
     | _, _ => False
     end.
Proof.
  unfold authenticate.
  destruct stored_emb as [stored|]; [|split; reflexivity].
  destruct (get_challenge_by_id cid) as [challenge|]; [|split; reflexivity].
  destruct (extract_frames video 10) as [e|frames]; [split; reflexivity|].
  rewrite !trace_bind, !value_bind.
  destruct (get_average_embedding frames) as [e|live]; [split; reflexivity|].
  destruct (compute_similarity stored live) as [e|sim];
    [split; reflexivity|].
  cbv zeta.
  destruct (is_live _ && direction_match _ && Py.ge sim SIMILARITY_THRESHOLD);
    cbn [value trace ret fst snd success authenticated message details
         session_id];
    repeat split; try reflexivity; intro Hfalse; discriminate Hfalse.
Qed.

(** *** The averaged embedding *)

Lemma Qplus_swap (x y z : Q) : x + (y + z) = y + (x + z).
Proof.
  destruct x as [a b], y as [c d], z as [e f]. unfold Qplus. cbn [Qnum Qden].
  f_equal.
  - rewrite !Pos2Z.inj_mul. ring.
  - rewrite !Pos.mul_assoc. f_equal. apply Pos.mul_comm.
Qed.

Lemma sum_permutation (l l' : list Q) :
  Permutation l l' -> Np.sum l = Np.sum l'.
Proof.
  unfold Np.sum.
  induction 1 as [|x l l' _ IH|x y l|l l' l'' _ IH1 _ IH2]; cbn [fold_right].
  - reflexivity.
  - rewrite IH. reflexivity.
  - apply Qplus_swap.
  - rewrite IH1. exact IH2.
Qed.

Lemma mean_permutation (l l' : list Q) :
  Permutation l l' -> Np.mean l = Np.mean l'.
Proof.
  intro H. unfold Np.mean.
  rewrite (sum_permutation l l' H), (Permutation_length H). reflexivity.
Qed.

Lemma same_length_iff (embeddings : list (list Q)) :
  same_length embeddings = true
  <-> forall v w, In v embeddings -> In w embeddings ->
                  List.length v = List.length w.
Proof.
  destruct embeddings as [|e rest]; cbn [same_length].
  - split; [intros _ v w []|reflexivity].
  - rewrite forallb_forall. split.
    + intros H v w Hv Hw.
      assert (Hall : forall u, In u (e :: rest) ->
                List.length u = List.length e).
      { intros u [<-|Hu]; [reflexivity|]. apply Nat.eqb_eq, H, Hu. }
      rewrite (Hall v Hv), (Hall w Hw). reflexivity.
    + intros H v Hv. apply Nat.eqb_eq. apply H; [right; exact Hv|left].
      reflexivity.
Qed.

Lemma same_length_permutation (e e' : list (list Q)) :
  Permutation e e' -> same_length e = same_length e'.
Proof.
  intro H.
  destruct (same_length e) eqn:E.
  - symmetry. apply same_length_iff. intros v w Hv Hw.
    apply (proj1 (same_length_iff e) E);
      eapply Permutation_in; try eassumption; apply Permutation_sym, H.
  - symmetry. apply not_true_is_false. intro E'.
    assert (E2 : same_length e = true).
    { apply same_length_iff. intros v w Hv Hw.
      apply (proj1 (same_length_iff e') E');
        eapply Permutation_in; eassumption. }
    congruence.
Qed.

Lemma mean_axis0_permutation (e e' : list (list Q)) :
  Permutation e e' -> same_length e = true ->
  mean_axis0 e = mean_axis0 e'.
Proof.
  intros H Hsame.
  destruct e as [|v e0].
  - apply Permutation_nil in H. subst e'. reflexivity.
  - destruct e' as [|w e0'].
    + apply Permutation_sym, Permutation_nil in H. discriminate H.
    + unfold mean_axis0.
      assert (Hlen : List.length w = List.length v).
      { apply (proj1 (same_length_iff _) Hsame).
        - eapply Permutation_in; [apply Permutation_sym, H|left; reflexivity].
        - left; reflexivity. }
      rewrite Hlen. apply map_ext. intro j.
      apply mean_permutation. apply Permutation_map. exact H.
Qed.

Lemma get_average_embedding_permutation (frames frames' : list Frame) :
  Permutation frames frames' ->
  get_average_embedding frames' = get_average_embedding frames.
Proof.
  intro H.
  assert (Hp : Permutation (map frame_to_embedding frames)
                 (map frame_to_embedding frames'))
    by (apply Permutation_map; exact H).
  unfold get_average_embedding.
  rewrite <- (same_length_permutation _ _ Hp).
  destruct (map frame_to_embedding frames) as [|v e0] eqn:E.
  - apply Permutation_nil in Hp. rewrite Hp. reflexivity.
  - destruct (map frame_to_embedding frames') as [|w e0'] eqn:E'.
    + apply Permutation_sym, Permutation_nil in Hp. discriminate Hp.
    + destruct (same_length (v :: e0)) eqn:Hs; [|reflexivity].
      rewrite <- (mean_axis0_permutation _ _ Hp Hs). reflexivity.
Qed.

(** C8.  On a non-empty list of frames whose feature vectors all have
    length [D], the aggregator returns the vector of coordinate-wise
    arithmetic means divided by its L2 norm plus 1e-8, a divisor that is
    positive whatever the input (the square root being non-negative), and
    any permutation of the frames yields the same vector. *)
Theorem average_embedding_normalized_and_order_free
  (sqrt_nonneg : forall x, 0 <= sqrt x)
  (frames : list Frame) (D : nat) :
  frames <> [] ->
  (forall f, In f frames -> List.length (frame_to_embedding f) = D) ->
  let embeddings := map frame_to_embedding frames in
  let n := inject_Z (Z.of_nat (List.length frames)) in
  let avg :=
    map (fun j => Np.sum (map (fun v => nth j v 0) embeddings) / n)
        (seq 0 D) in
  let divisor := sqrt (Np.sum (map (fun x => x * x) avg)) + (1 # 100000000) in
  0 < divisor
  /\ get_average_embedding frames = inr (map (fun x => x / divisor) avg)
  /\ forall frames',
       Permutation frames frames' ->
       get_average_embedding frames' = get_average_embedding frames.
Proof.
  intros Hne Hlen embeddings n avg divisor.
  split; [|split].
  - unfold divisor.
    apply Qlt_le_trans with (y := 0 + (1 # 100000000)); [reflexivity|].
    apply Qplus_le_l. apply sqrt_nonneg.
  - assert (Hsame : same_length embeddings = true).
    { apply same_length_iff. intros v w Hv Hw.
      apply in_map_iff in Hv. destruct Hv as (fv & <- & Hfv).
      apply in_map_iff in Hw. destruct Hw as (fw & <- & Hfw).
      rewrite (Hlen fv Hfv), (Hlen fw Hfw). reflexivity. }
    assert (Havg : mean_axis0 embeddings = avg).
    { unfold avg, n. rewrite <- (length_map frame_to_embedding frames).
      fold embeddings. unfold mean_axis0, embeddings.
      destruct frames as [|f0 frames0]; [contradiction Hne; reflexivity|].
      cbn [map]. rewrite (Hlen f0 (or_introl eq_refl)).
      apply map_ext. intro j. unfold Np.mean. cbn [List.length].
      rewrite !length_map. reflexivity. }
    unfold get_average_embedding. fold embeddings.
    rewrite Hsame, Havg.
    destruct embeddings as [|e0 rest] eqn:E; [|reflexivity].
    destruct frames; [contradiction Hne; reflexivity|discriminate E].
  - apply get_average_embedding_permutation.
Qed.

(** *** Frame extraction *)

Lemma pick_in_range {A : Type} (l : list A) (g : nat -> Z) :
  forall n a,
    (forall i, (a <= i < a + n)%nat ->
               (0 <= g i < Z.of_nat (List.length l))%Z) ->
    exists fs,
      pick l (map g (seq a n)) = Some fs
      /\ flat_map (fun idx =>
                     match (if (idx <? 0)%Z then None
                            else nth_error l (Z.to_nat idx)) with
                     | Some frame => [frame]
                     | None => []
                     end) (map g (seq a n)) = fs
      /\ List.length fs = n
      /\ forall k, (k < n)%nat ->
                   nth_error fs k = nth_error l (Z.to_nat (g (a + k)%nat)).
Proof.
  induction n as [|n IH]; intros a Hr.
  - exists []. repeat split; try reflexivity. intros k Hk. lia.
  - destruct (IH (S a)) as (fs & Hpick & Hflat & Hlen & Hnth).
    { intros i Hi. apply Hr. lia. }
    assert (Ha : (0 <= g a < Z.of_nat (List.length l))%Z)
      by (apply Hr; lia).
    assert (Hneg : (g a <? 0)%Z = false) by (apply Z.ltb_ge; lia).
    destruct (nth_error l (Z.to_nat (g a))) as [f|] eqn:E.
    + exists (f :: fs). cbn [seq map pick flat_map].
      rewrite Hneg, E, Hpick, Hflat. cbn [app List.length].
      repeat split; try reflexivity.
      * rewrite Hlen. reflexivity.
      * intros [|k] Hk.
        -- rewrite Nat.add_0_r. cbn. symmetry. exact E.
        -- cbn [nth_error]. rewrite Hnth by lia.
           replace (S a + k)%nat with (a + S k)%nat by lia. reflexivity.
    + apply nth_error_None in E. lia.
Qed.

Lemma linspace_int_samples (stop : Z) (m : nat) :
  Np.linspace_int stop (S (S m))
  = map (fun i => Z.quot (Z.of_nat i * stop) (Z.of_nat (S m)))
        (seq 0 (S (S m))).
Proof. reflexivity. Qed.

Lemma sample_in_range (total m i : nat) :
  (0 < total)%nat -> (i < S (S m))%nat ->
  let idx := Z.quot (Z.of_nat i * (Z.of_nat total - 1)) (Z.of_nat (S m)) in
  (0 <= idx < Z.of_nat total)%Z
  /\ Z.to_nat idx = floor_index total (S (S m)) i.
Proof.
  intros Ht Hi idx. subst idx. unfold floor_index.
  replace (Z.of_nat (S (S m)) - 1)%Z with (Z.of_nat (S m)) by lia.
  rewrite Z.quot_div_nonneg by nia.
  split; [|reflexivity]. split.
  - apply Z.div_pos; nia.
  - apply Z.le_lt_trans with (m := (Z.of_nat total - 1)%Z); [|lia].
    apply Z.div_le_upper_bound; nia.
Qed.

Lemma floor_index_all (n i : nat) :
  (2 <= n)%nat -> (i < n)%nat -> floor_index n n i = i.
Proof.
  intros Hn Hi. unfold floor_index.
  rewrite Z.div_mul by lia. apply Nat2Z.id.
Qed.





(** With other sample counts the binary64 step can fall short of the
    exact quotient: fifteen samples of 123 frames read position 60 at
    [i = 7], where the exact quotient is 61. *)
Lemma linspace_f64_below_exact :
  nth 7 (Np.linspace_f64 122 15) 0%Z = 60%Z
  /\ nth 7 (Np.linspace_int 122 15) 0%Z = 61%Z.
Proof. split; vm_compute; reflexivity. Qed.



Lemma pick_cons_nonempty {A : Type} (l : list A) (i : Z) (rest : list Z)
  (fs : list A) :
  pick l (i :: rest) = Some fs -> fs <> [].
Proof.
  cbn [pick].
  destruct (if (i <? 0)%Z then None else nth_error l (Z.to_nat i));
    [|discriminate].
  destruct (pick l rest); [|discriminate].
  intro H. injection H as <-. discriminate.
Qed.

(** With a positive target count a successful extraction is never empty,
    so the aggregator is never run on no frames by [authenticate]. *)
Lemma extract_frames_nonempty (video : Video Frame) (n : nat)
  (frames : list Frame) :
  (0 < n)%nat -> extract_frames video n = inr frames -> frames <> [].
Proof.
  intros Hn H. unfold extract_frames in H.
  destruct (negb (isOpened video)); [discriminate H|].
  destruct (frame_count video <=? 0)%Z.
  - destruct (List.length (read_all video) =? 0)%nat eqn:E0;
      [discriminate H|].
    destruct (n <? List.length (read_all video))%nat.
    + destruct (pick (read_all video) _) as [fs|] eqn:Ep; [|discriminate H].
      injection H as <-.
      destruct n as [|[|m]]; [lia| |].
      * cbn [Np.linspace_int] in Ep. eapply pick_cons_nonempty, Ep.
      * rewrite linspace_int_samples in Ep. cbn [seq map] in Ep.
        eapply pick_cons_nonempty, Ep.
    + injection H as <-. intro Hnil. rewrite Hnil in E0. discriminate E0.
  - match type of H with
    | (if (List.length ?fs =? 0)%nat then _ else _) = _ =>
        destruct (List.length fs =? 0)%nat eqn:E0; [discriminate H|];
        injection H as <-; intro Hnil; rewrite Hnil in E0; discriminate E0
    end.
Qed.

(** ** Further properties of the code *)

(** *** Optical flow and liveness *)

Ltac bind_norm := repeat (rewrite value_bind || rewrite trace_bind).

Lemma value_mapT_call {C A B : Type} (c : A -> C) (g : A -> B) (l : list A) :
  value (mapT (fun a => call (c a) (g a)) l) = map g l
  /\ trace (mapT (fun a => call (c a) (g a)) l) = map c l.
Proof.
  induction l as [|a l [IHv IHt]]; [split; reflexivity|].
  cbn [mapT]. bind_norm. rewrite IHv, IHt.
  cbn [trace value call ret fst snd]. rewrite app_nil_r.
  split; reflexivity.
Qed.

Lemma flow_pairs_adjacent (grays : list Gray) :
  value (flow_pairs grays)
  = map (fun p => calcOpticalFlowFarneback (fst p) (snd p)) (adjacent grays)
  /\ trace (flow_pairs grays)
     = map (fun p => CallFarneback (fst p) (snd p)) (adjacent grays).
Proof.
  induction grays as [|a [|b rest] IH]; try (split; reflexivity).
  destruct IH as [IHv IHt].
  change (flow_pairs (a :: b :: rest))
    with (flow <- call (CallFarneback a b)
                       (calcOpticalFlowFarneback a b) ;;
          flows <- flow_pairs (b :: rest) ;;
          ret (flow :: flows)).
  bind_norm. rewrite IHv, IHt.
  cbn [trace value call ret fst snd]. rewrite app_nil_r.
  split; reflexivity.
Qed.

Lemma length_adjacent {A : Type} (l : list A) :
  List.length (adjacent l) = (List.length l - 1)%nat.
Proof.
  unfold adjacent. rewrite length_combine.
  destruct l as [|a l]; cbn [tl List.length]; lia.
Qed.

Lemma length_compute_optical_flow (frames : list Frame) :
  List.length (value (compute_optical_flow frames))
  = (List.length frames - 1)%nat.
Proof.
  unfold compute_optical_flow.
  destruct (value_mapT_call (@CallCvtColor Frame Gray) cvtColor frames)
    as [Hv _].
  rewrite value_bind, Hv.
  destruct (flow_pairs_adjacent (map cvtColor frames)) as [Hfv _].
  rewrite Hfv, length_map, length_adjacent, length_map. reflexivity.
Qed.

(** X1.  The flow computation converts every frame to grey once, in order,
    then calls the dense-flow primitive once on each pair of neighbouring
    grey frames, in order; it returns those fields, one fewer than the
    frames (none for an empty sequence). *)
Theorem compute_optical_flow_pairs (frames : list Frame) :
  let grays := map cvtColor frames in
  value (compute_optical_flow frames)
  = map (fun p => calcOpticalFlowFarneback (fst p) (snd p)) (adjacent grays)
  /\ trace (compute_optical_flow frames)
     = (map CallCvtColor frames
        ++ map (fun p => CallFarneback (fst p) (snd p)) (adjacent grays))%list
  /\ List.length (value (compute_optical_flow frames))
     = (List.length frames - 1)%nat.
Proof.
  intro grays. unfold compute_optical_flow.
  destruct (value_mapT_call (@CallCvtColor Frame Gray) cvtColor frames)
    as [Hv Ht].
  rewrite value_bind, trace_bind, Hv, Ht. fold grays.
  destruct (flow_pairs_adjacent grays) as [Hfv Hft].
  rewrite Hfv, Hft. repeat split.
  rewrite length_map, length_adjacent. unfold grays.
  rewrite length_map. reflexivity.
Qed.

Lemma lt_true_iff (a b : Q) : Py.lt a b = true <-> a < b.
Proof. unfold Py.lt. apply (gt_true_iff b a). Qed.

Lemma lt_false_iff (a b : Q) : Py.lt a b = false <-> b <= a.
Proof. unfold Py.lt. apply (gt_false_iff b a). Qed.

Lemma liveness_fields (frames : list Frame) (min_motion : Q) :
  (2 <= List.length frames)%nat ->
  let r := value (check_liveness frames min_motion) in
  let flows := value (compute_optical_flow frames) in
  let avg := Np.mean (map (fun flow => Np.mean (magnitude flow)) flows) in
  is_live r = negb (Py.lt avg min_motion)
  /\ motion_score r = Py.round avg 3
  /\ trace (check_liveness frames min_motion)
     = trace (compute_optical_flow frames).
Proof.
  intros Hlen r flows avg. subst r. unfold check_liveness.
  rewrite (enough_frames frames Hlen).
  rewrite value_bind, trace_bind. fold flows.
  assert (Hn : (List.length (map (fun flow => Np.mean (magnitude flow)) flows)
                =? 0)%nat = false).
  { apply Nat.eqb_neq. rewrite length_map. unfold flows.
    rewrite length_compute_optical_flow. lia. }
  unfold compute_motion_magnitude. rewrite Hn.
  cbn [avg_magnitude]. fold avg.
  destruct (Py.lt avg min_motion) eqn:E;
    cbn [value trace ret fst snd is_live motion_score negb];
    rewrite app_nil_r; repeat split; reflexivity.
Qed.

(** X2.  On two or more frames the liveness check passes exactly when the
    mean over the flow fields of their mean displacement magnitude is at
    least the threshold (the boundary included); the motion score it
    reports is that mean rounded to three decimals, and the calls it makes
    are those of one flow computation. *)
Theorem liveness_passes_iff_enough_motion
  (frames : list Frame) (min_motion : Q) :
  (2 <= List.length frames)%nat ->
  let r := value (check_liveness frames min_motion) in
  let flows := value (compute_optical_flow frames) in
  let avg := Np.mean (map (fun flow => Np.mean (magnitude flow)) flows) in
  (is_live r = true <-> min_motion <= avg)
  /\ motion_score r = Py.round avg 3
  /\ trace (check_liveness frames min_motion)
     = trace (compute_optical_flow frames).
Proof.
  intros Hlen r flows avg.
  destruct (liveness_fields frames min_motion Hlen) as (Hlive & Hscore & Ht).
  fold r flows avg in Hlive, Hscore.
  split; [|split; assumption].
  rewrite Hlive. destruct (Py.lt avg min_motion) eqn:E; cbn [negb]; split.
  - intro H. discriminate H.
  - intro H. apply lt_true_iff in E. exfalso.
    exact (Qlt_not_le _ _ E H).
  - intros _. apply lt_false_iff. exact E.
  - reflexivity.
Qed.

(** *** A motionless video *)

Lemma sum_zero (l : list Q) :
  Forall (fun x => x == 0) l -> Np.sum l == 0.
Proof.
  unfold Np.sum. induction 1 as [|x l Hx _ IH]; cbn [fold_right].
  - reflexivity.
  - rewrite Hx, IH. reflexivity.
Qed.

Lemma mean_zero (l : list Q) :
  Forall (fun x => x == 0) l -> Np.mean l == 0.
Proof.
  intro H. unfold Np.mean, Qdiv. rewrite (sum_zero l H).
  apply Qmult_0_l.
Qed.

Lemma round_half_even_zero (x : Q) : x == 0 -> Py.round_half_even x = 0%Z.
Proof.
  intro H. unfold Py.round_half_even.
  assert (Hf : Qfloor x = 0%Z) by (rewrite H; reflexivity).
  rewrite Hf.
  assert (Hc : (x - inject_Z 0 ?= 1 # 2) = Lt) by (rewrite H; reflexivity).
  rewrite Hc. reflexivity.
Qed.

Lemma round_zero (x : Q) (n : nat) : x == 0 -> Py.round x n == 0.
Proof.
  intro H. unfold Py.round.
  rewrite round_half_even_zero.
  - unfold Qdiv. apply Qmult_0_l.
  - rewrite H. apply Qmult_0_l.
Qed.

Lemma pixels_in (flow : Flow) (y x : Z) (p : Q * Q) :
  In (y, x, p) (pixels flow) -> exists row, In row flow /\ In p row.
Proof.
  unfold pixels. intro H.
  apply in_concat in H. destruct H as (l & Hl & Hp).
  apply in_map_iff in Hl. destruct Hl as ([i row] & <- & Hrow).
  apply in_combine_r in Hrow.
  apply in_map_iff in Hp. destruct Hp as ([j q] & Heq & Hq).
  apply in_combine_r in Hq. cbn [fst snd] in *.
  injection Heq as _ _ <-. exists row. split; assumption.
Qed.

Lemma zero_flow_pixels (flow : Flow) :
  zero_flow flow ->
  Forall (fun px => snd px = (0, 0)) (pixels flow).
Proof.
  intro H. apply Forall_forall. intros [[y x] p] Hin.
  destruct (pixels_in flow y x p Hin) as (row & Hrow & Hp).
  unfold zero_flow in H. rewrite Forall_forall in H.
  specialize (H row Hrow). rewrite Forall_forall in H. exact (H p Hp).
Qed.

Lemma zero_flow_concat (flow : Flow) :
  zero_flow flow -> Forall (fun p => p = (0, 0)) (List.concat flow).
Proof.
  intro H. apply Forall_forall. intros p Hin.
  apply in_concat in Hin. destruct Hin as (row & Hrow & Hp).
  unfold zero_flow in H. rewrite Forall_forall in H.
  specialize (H row Hrow). rewrite Forall_forall in H. exact (H p Hp).
Qed.

Lemma zero_flow_magnitude (flow : Flow) :
  sqrt 0 == 0 -> zero_flow flow -> Np.mean (magnitude flow) == 0.
Proof.
  intros Hs H. apply mean_zero. unfold magnitude.
  apply Forall_forall. intros m Hm.
  apply in_map_iff in Hm. destruct Hm as (p & <- & Hp).
  pose proof (zero_flow_concat flow H) as Hz. rewrite Forall_forall in Hz.
  rewrite (Hz p Hp). exact Hs.
Qed.

Lemma zero_flow_components (flow : Flow) :
  zero_flow flow ->
  Np.mean (map fst (List.concat flow)) == 0
  /\ Np.mean (map snd (List.concat flow)) == 0
  /\ Np.mean (radial_component flow) == 0
  /\ Np.mean (tangential_component flow) == 0.
Proof.
  intro H.
  pose proof (zero_flow_concat flow H) as Hz. rewrite Forall_forall in Hz.
  pose proof (zero_flow_pixels flow H) as Hp. rewrite Forall_forall in Hp.
  repeat split; apply mean_zero; apply Forall_forall; intros v Hv;
    apply in_map_iff in Hv.
  - destruct Hv as (p & <- & Hin). rewrite (Hz p Hin). reflexivity.
  - destruct Hv as (p & <- & Hin). rewrite (Hz p Hin). reflexivity.
  - destruct Hv as ([[y x] p] & <- & Hin).
    pose proof (Hp _ Hin) as Hzero. cbn [snd] in Hzero. subst p.
    destruct (radial_unit flow y x) as [vx vy]. ring.
  - destruct Hv as ([[y x] p] & <- & Hin).
    pose proof (Hp _ Hin) as Hzero. cbn [snd] in Hzero. subst p.
    destruct (radial_unit flow y x) as [vx vy]. ring.
Qed.

Lemma accumulate_zero (flows : list Flow) :
  Forall zero_flow flows ->
  forall acc,
    horizontal acc == 0 -> vertical acc == 0 ->
    expansion acc == 0 -> rotation acc == 0 ->
    let sums := fold_left accumulate flows acc in
    horizontal sums == 0 /\ vertical sums == 0
    /\ expansion sums == 0 /\ rotation sums == 0.
Proof.
  induction 1 as [|flow flows Hflow _ IH]; intros acc Hh Hv He Hr.
  - cbn. auto.
  - cbn [fold_left].
    destruct (zero_flow_components flow Hflow) as (Ch & Cv & Ce & Cr).
    apply IH; unfold accumulate;
      cbn [horizontal vertical expansion rotation].
    + rewrite Hh, Ch. reflexivity.
    + rewrite Hv, Cv. reflexivity.
    + rewrite He, Ce. reflexivity.
    + rewrite Hr, Cr. reflexivity.
Qed.

Lemma detect_dominant_direction_zero (flows : list Flow) :
  Forall zero_flow flows ->
  let info := detect_dominant_direction flows in
  horizontal info == 0 /\ vertical info == 0
  /\ expansion info == 0 /\ rotation info == 0.
Proof.
  intros H info. subst info. unfold detect_dominant_direction.
  destruct (accumulate_zero flows H
              {| horizontal := 0; vertical := 0;
                 expansion := 0; rotation := 0 |})
    as (Hh & Hv & He & Hr); try reflexivity.
  cbn [horizontal vertical expansion rotation]. unfold Qdiv.
  rewrite Hh, Hv, He, Hr. repeat split; apply Qmult_0_l.
Qed.

Lemma max_zero_of_zero (a : Q) : a == 0 -> Py.max a 0 == 0.
Proof.
  intro H. unfold Py.max. destruct (Py.gt 0 a); [reflexivity|exact H].
Qed.

Lemma gt_zero_zero (a b : Q) : a == 0 -> b == 0 -> Py.gt a b = false.
Proof.
  intros Ha Hb. apply gt_false_iff. rewrite Ha, Hb. apply Qle_refl.
Qed.

(** X3.  A motionless video is rejected by both checks.  When every flow
    field between two or more frames is exactly zero (the square root of
    zero being zero), the liveness check fails with motion score 0 for
    any positive threshold, and the direction check finds every candidate
    score 0, reports rotation with confidence 0 and fails for any
    non-negative threshold. *)
Theorem motionless_video_rejected
  (frames : list Frame) (min_motion : Q) (expected : string) (thr : Q) :
  (2 <= List.length frames)%nat ->
  sqrt 0 == 0 ->
  Forall zero_flow (value (compute_optical_flow frames)) ->
  0 < min_motion -> 0 <= thr ->
  let lr := value (check_liveness frames min_motion) in
  let dr := value (check_challenge_direction frames expected thr) in
  is_live lr = false
  /\ motion_score lr == 0
  /\ Forall (fun v => v == 0) (map snd (candidates frames))
  /\ detected_direction dr = "rotation"%string
  /\ confidence dr == 0
  /\ direction_match dr = false.
Proof.
  intros Hlen Hsqrt Hzero Hmin Hthr lr dr.
  set (flows := value (compute_optical_flow frames)) in *.
  assert (Havg : Np.mean (map (fun flow => Np.mean (magnitude flow)) flows)
                 == 0).
  { apply mean_zero. apply Forall_forall. intros m Hm.
    apply in_map_iff in Hm. destruct Hm as (flow & <- & Hin).
    rewrite Forall_forall in Hzero.
    apply zero_flow_magnitude; [exact Hsqrt | apply Hzero, Hin]. }
  destruct (liveness_fields frames min_motion Hlen)
    as (Hlive & Hscore & _).
  fold lr in Hlive, Hscore. fold flows in Hlive, Hscore.
  destruct (detect_dominant_direction_zero flows Hzero)
    as (Hh & _ & He & Hr).
  assert (Hcand : Forall (fun v => v == 0) (map snd (candidates frames))).
  { unfold candidates, direction_scores. fold flows. cbn [map snd].
    repeat constructor.
    - unfold Py.abs. rewrite Hr. reflexivity.
    - apply max_zero_of_zero, He.
    - apply max_zero_of_zero. rewrite He. reflexivity.
    - apply max_zero_of_zero. rewrite Hh. reflexivity.
    - apply max_zero_of_zero, Hh. }
  assert (Hscores : forall k, In k SCORES_ORDER ->
            Py.get_or_zero (candidates frames) k == 0).
  { intros k Hk. rewrite Forall_forall in Hcand. apply Hcand.
    apply get_or_zero_candidates, Hk. }
  destruct (direction_fields frames expected thr Hlen)
    as (Hdet & Hconf & Hmatch & _).
  fold dr in Hdet, Hconf, Hmatch.
  assert (Hrot : detected_direction dr = "rotation"%string).
  { rewrite Hdet. cbn [Py.max_by].
    rewrite (gt_zero_zero _ _ (Hscores "zoom_in"%string ltac:(cbn; auto))
               (Hscores "rotation"%string ltac:(cbn; auto))).
    rewrite (gt_zero_zero _ _ (Hscores "zoom_out"%string ltac:(cbn; auto))
               (Hscores "rotation"%string ltac:(cbn; auto))).
    rewrite (gt_zero_zero _ _ (Hscores "left"%string ltac:(cbn; auto 6))
               (Hscores "rotation"%string ltac:(cbn; auto))).
    rewrite (gt_zero_zero _ _ (Hscores "right"%string ltac:(cbn; auto 6))
               (Hscores "rotation"%string ltac:(cbn; auto))).
    reflexivity. }
  assert (Hzc : Py.get_or_zero (candidates frames) (detected_direction dr)
                == 0).
  { rewrite Hrot. apply Hscores. cbn; auto. }
  split; [|split; [|split; [|split; [|split]]]].
  - rewrite Hlive. apply negb_false_iff, lt_true_iff.
    rewrite Havg. exact Hmin.
  - rewrite Hscore. apply round_zero, Havg.
  - exact Hcand.
  - exact Hrot.
  - rewrite Hconf. apply round_zero, Hzc.
  - rewrite Hmatch. apply gt_false_iff. rewrite Hzc. exact Hthr.
Qed.

(** *** The candidate scores *)

Lemma max_opposite (e : Q) :
  Py.max e 0 + Py.max (- e) 0 == Qabs e
  /\ (0 < Py.max e 0 -> Py.max (- e) 0 == 0)
  /\ (0 < Py.max (- e) 0 -> Py.max e 0 == 0).
Proof.
  unfold Py.max.
  destruct (Py.gt 0 e) eqn:E1; destruct (Py.gt 0 (- e)) eqn:E2;
    try apply gt_true_iff in E1; try apply gt_true_iff in E2;
    try apply gt_false_iff in E1; try apply gt_false_iff in E2.
  - exfalso. lra.
  - split; [|split].
    + rewrite Qabs_neg by lra. lra.
    + intro H. lra.
    + intros _. reflexivity.
  - split; [|split].
    + rewrite Qabs_pos by lra. lra.
    + intros _. reflexivity.
    + intro H. lra.
  - split; [|split].
    + rewrite Qabs_pos by lra. lra.
    + intro H. lra.
    + intro H. lra.
Qed.

(** X4.  The two zoom candidates split the magnitude of the expansion and
    the two sideways candidates that of the horizontal flow: each pair
    sums to the absolute value, and at most one of a pair is positive. *)
Theorem opposite_candidates_exclusive (info : DirectionInfo) :
  let score := Py.get_or_zero (direction_scores info) in
  score "zoom_in"%string + score "zoom_out"%string == Qabs (expansion info)
  /\ score "right"%string + score "left"%string == Qabs (horizontal info)
  /\ score "rotation"%string == Qabs (rotation info)
  /\ ~ (0 < score "zoom_in"%string /\ 0 < score "zoom_out"%string)
  /\ ~ (0 < score "left"%string /\ 0 < score "right"%string).
Proof.
  intro score. subst score. unfold direction_scores.
  cbn [Py.get_or_zero Py.dict_get String.eqb Ascii.eqb Bool.eqb].
  destruct (max_opposite (expansion info)) as (He & He1 & _).
  destruct (max_opposite (horizontal info)) as (Hh & Hh1 & _).
  split; [exact He|]. split; [exact Hh|]. split; [reflexivity|].
  split.
  - intros [H1 H2]. rewrite (He1 H1) in H2. exact (Qlt_irrefl 0 H2).
  - intros [H1 H2]. rewrite (Hh1 H2) in H1. exact (Qlt_irrefl 0 H1).
Qed.

(** X5.  The expected direction has no influence on the direction check:
    for any two expected directions the verdicts agree on whether the
    check passes, on the detected direction and on the confidence, and
    the same calls are made. *)
Theorem direction_verdict_ignores_expected
  (frames : list Frame) (e1 e2 : string) (thr : Q) :
  let r1 := check_challenge_direction frames e1 thr in
  let r2 := check_challenge_direction frames e2 thr in
  direction_match (value r1) = direction_match (value r2)
  /\ detected_direction (value r1) = detected_direction (value r2)
  /\ confidence (value r1) = confidence (value r2)
  /\ flow_details (value r1) = flow_details (value r2)
  /\ trace r1 = trace r2.
Proof.
  intros r1 r2. subst r1 r2.
  destruct (List.length frames <? 2)%nat eqn:E.
  - apply Nat.ltb_lt in E.
    rewrite !(check_challenge_direction_few frames _ thr E).
    repeat split.
  - apply Nat.ltb_ge in E.
    destruct (direction_fields frames e1 thr E) as (Hd1 & Hc1 & Hm1 & _).
    destruct (direction_fields frames e2 thr E) as (Hd2 & Hc2 & Hm2 & _).
    assert (Hd : detected_direction
                   (value (check_challenge_direction frames e1 thr))
                 = detected_direction
                     (value (check_challenge_direction frames e2 thr)))
      by (rewrite Hd1, Hd2; reflexivity).
    split; [rewrite Hm1, Hm2, Hd; reflexivity|].
    split; [exact Hd|].
    split; [rewrite Hc1, Hc2, Hd; reflexivity|].
    unfold check_challenge_direction. rewrite (enough_frames frames E).
    bind_norm. cbv zeta.
    split.
    + destruct (negb _ && _); destruct (negb _ && _);
        try destruct (String.eqb _ e1 && _);
        try destruct (String.eqb _ e2 && _); reflexivity.
    + destruct (negb _ && _); destruct (negb _ && _);
        try destruct (String.eqb _ e1 && _);
        try destruct (String.eqb _ e2 && _); reflexivity.
Qed.

(** *** Frame extraction, further *)

Lemma pick_some {A : Type} (l : list A) :
  forall idxs fs,
    pick l idxs = Some fs ->
    List.length fs = List.length idxs /\ incl fs l.
Proof.
  induction idxs as [|i idxs IH]; intros fs H.
  - injection H as <-. split; [reflexivity|]. intros x [].
  - cbn [pick] in H.
    destruct (i <? 0)%Z; [discriminate H|].
    destruct (nth_error l (Z.to_nat i)) as [f|] eqn:E; [|discriminate H].
    destruct (pick l idxs) as [fs'|]; [|discriminate H].
    injection H as <-. destruct (IH fs' eq_refl) as [Hlen Hincl].
    split; [cbn; rewrite Hlen; reflexivity|].
    intros x [<-|Hx]; [eapply nth_error_In; exact E | apply Hincl, Hx].
Qed.

Lemma read_each_bounds (video : Video Frame) (idxs : list Z) :
  let frames :=
    flat_map (fun idx => match read_at video idx with
                         | Some frame => [frame]
                         | None => []
                         end) idxs in
  (List.length frames <= List.length idxs)%nat
  /\ incl frames (stream video).
Proof.
  induction idxs as [|i idxs [IHl IHi]]; cbn [flat_map].
  - split; [reflexivity|]. intros x [].
  - unfold read_at at 1 3.
    destruct (i <? 0)%Z; [split; [cbn; lia|exact IHi]|].
    destruct (nth_error (stream video) (Z.to_nat i)) as [f|] eqn:E.
    + split; [cbn; lia|].
      intros x [<-|Hx]; [eapply nth_error_In; exact E | apply IHi, Hx].
    + split; [cbn; lia|exact IHi].
Qed.

Lemma length_linspace_int (stop : Z) (n : nat) :
  List.length (Np.linspace_int stop n) = n.
Proof.
  destruct n as [|[|m]]; try reflexivity.
  rewrite linspace_int_samples, length_map, length_seq. reflexivity.
Qed.

Lemma pick_linspace_in_range {A : Type} (l : list A) (n : nat) :
  (n < List.length l)%nat ->
  exists fs,
    pick l (Np.linspace_int (Z.of_nat (List.length l) - 1) n) = Some fs.
Proof.
  intro Hlt. destruct n as [|[|m]].
  - exists []. reflexivity.
  - cbn [Np.linspace_int pick]. cbn [Z.ltb Z.compare Z.to_nat].
    destruct l as [|a l]; [cbn in Hlt; lia|].
    exists [a]. reflexivity.
  - rewrite linspace_int_samples.
    destruct (pick_in_range l
                (fun i => Z.quot (Z.of_nat i * (Z.of_nat (List.length l) - 1))
                            (Z.of_nat (S m))) (S (S m)) 0)
      as (fs & Hpick & _).
    + intros i Hi. apply (sample_in_range (List.length l) m i); lia.
    + exists fs. exact Hpick.
Qed.

(** X6.  Extraction never fails with an index out of range, and what it
    returns is bounded by its inputs: at most [n] frames, at least one
    when [n] is positive, each of them a frame of the video. *)
Theorem extract_frames_bounds (video : Video Frame) (n : nat) :
  extract_frames video n <> inl IndexError
  /\ forall frames,
       extract_frames video n = inr frames ->
       (List.length frames <= n)%nat
       /\ ((0 < n)%nat -> frames <> [])
       /\ incl frames (stream video).
Proof.
  split.
  - unfold extract_frames.
    destruct (negb (isOpened video)); [discriminate|].
    destruct (frame_count video <=? 0)%Z.
    + destruct (List.length (read_all video) =? 0)%nat; [discriminate|].
      destruct (n <? List.length (read_all video))%nat eqn:E;
        [|discriminate].
      apply Nat.ltb_lt in E.
      destruct (pick_linspace_in_range (read_all video) n E) as (fs & ->).
      discriminate.
    + destruct (List.length (flat_map _ _) =? 0)%nat; discriminate.
  - intros frames H.
    split; [|split;
              [intro Hn; exact (extract_frames_nonempty video n frames Hn H)
              |]];
      unfold extract_frames in H;
      (destruct (negb (isOpened video)); [discriminate H|]);
      destruct (frame_count video <=? 0)%Z.
    + destruct (List.length (read_all video) =? 0)%nat; [discriminate H|].
      destruct (n <? List.length (read_all video))%nat eqn:E.
      * destruct (pick _ _) as [fs|] eqn:Ep; [|discriminate H].
        injection H as <-. destruct (pick_some _ _ _ Ep) as [Hlen _].
        rewrite Hlen, length_linspace_int. reflexivity.
      * injection H as <-. apply Nat.ltb_ge in E. exact E.
    + destruct (read_each_bounds video
                  (Np.linspace_int (frame_count video - 1) n)) as [Hlen _].
      destruct (List.length (flat_map _ _) =? 0)%nat; [discriminate H|].
      injection H as <-. rewrite length_linspace_int in Hlen. exact Hlen.
    + destruct (List.length (read_all video) =? 0)%nat; [discriminate H|].
      destruct (n <? List.length (read_all video))%nat.
      * destruct (pick _ _) as [fs|] eqn:Ep; [|discriminate H].
        injection H as <-. exact (proj2 (pick_some _ _ _ Ep)).
      * injection H as <-. apply incl_refl.
    + destruct (read_each_bounds video
                  (Np.linspace_int (frame_count video - 1) n)) as [_ Hincl].
      destruct (List.length (flat_map _ _) =? 0)%nat; [discriminate H|].
      injection H as <-. exact Hincl.
Qed.

Lemma extract_frames_sampled (video : Video Frame) (n : nat) :
  isOpened video = true ->
  (2 <= n)%nat -> (n <= List.length (stream video))%nat ->
  (frame_count video <= 0)%Z
  \/ frame_count video = Z.of_nat (List.length (stream video)) ->
  exists frames,
    extract_frames video n = inr frames
    /\ List.length frames = n
    /\ forall i, (i < n)%nat ->
         nth_error frames i
         = nth_error (stream video)
             (floor_index (List.length (stream video)) n i).
Proof.
  intros Ho Hn Hle Hcount.
  set (total := List.length (stream video)) in *.
  destruct n as [|[|m]]; try lia.
  assert (Hpos : (0 < total)%nat) by lia.
  destruct (pick_in_range (stream video)
              (fun i => Z.quot (Z.of_nat i * (Z.of_nat total - 1))
                          (Z.of_nat (S m))) (S (S m)) 0)
    as (fs & Hpick & Hflat & Hlen & Hnth).
  { intros i Hi. apply (sample_in_range total m i); lia. }
  assert (Hfs : forall i, (i < S (S m))%nat ->
            nth_error fs i
            = nth_error (stream video) (floor_index total (S (S m)) i)).
  { intros i Hi. rewrite (Hnth i Hi). cbn [Nat.add].
    rewrite (proj2 (sample_in_range total m i Hpos Hi)). reflexivity. }
  unfold extract_frames, read_all, read_at. rewrite Ho. cbn [negb].
  fold total.
  destruct Hcount as [Hc|Hc].
  - apply Z.leb_le in Hc. rewrite Hc.
    replace (total =? 0)%nat with false
      by (symmetry; apply Nat.eqb_neq; lia).
    destruct (S (S m) <? total)%nat eqn:Elt.
    + rewrite linspace_int_samples, Hpick.
      exists fs. repeat split; assumption.
    + apply Nat.ltb_ge in Elt.
      assert (Heq : total = S (S m)) by lia.
      exists (stream video). split; [reflexivity|]. split; [exact Heq|].
      intros i Hi. rewrite Heq.
      rewrite floor_index_all by lia. reflexivity.
  - replace (frame_count video <=? 0)%Z with false
      by (symmetry; apply Z.leb_gt; lia).
    rewrite Hc, linspace_int_samples, Hflat, Hlen.
    exists fs. repeat split; assumption.
Qed.

Lemma floor_index_monotone (total n i j : nat) :
  (0 < total)%nat -> (2 <= n)%nat -> (i <= j)%nat ->
  (floor_index total n i <= floor_index total n j)%nat.
Proof.
  intros Ht Hn Hij. unfold floor_index.
  apply Z2Nat.inj_le.
  - apply Z.div_pos; nia.
  - apply Z.div_pos; nia.
  - apply Z.div_le_mono; nia.
Qed.

(** X7.  When at least [n >= 2] frames decode and the header reports no
    count or the exact one, the sample keeps the temporal order, starts
    with the first frame of the video and ends with its last. *)
Theorem extract_frames_spans_video (video : Video Frame) (n : nat) :
  isOpened video = true ->
  (2 <= n)%nat -> (n <= List.length (stream video))%nat ->
  (frame_count video <= 0)%Z
  \/ frame_count video = Z.of_nat (List.length (stream video)) ->
  exists frames pos,
    extract_frames video n = inr frames
    /\ List.length frames = n
    /\ (forall i, (i < n)%nat ->
          nth_error frames i = nth_error (stream video) (pos i))
    /\ (forall i j, (i <= j)%nat -> (pos i <= pos j)%nat)
    /\ pos 0%nat = 0%nat
    /\ pos (n - 1)%nat = (List.length (stream video) - 1)%nat.
Proof.
  intros Ho Hn Hle Hcount.
  destruct (extract_frames_sampled video n Ho Hn Hle Hcount)
    as (frames & Hex & Hlen & Hnth).
  exists frames, (floor_index (List.length (stream video)) n).
  split; [exact Hex|]. split; [exact Hlen|]. split; [exact Hnth|].
  split; [|split].
  - intros i j Hij. apply floor_index_monotone; lia.
  - unfold floor_index. rewrite Z.mul_0_l, Z.div_0_l by lia. reflexivity.
  - unfold floor_index.
    replace (Z.of_nat (n - 1)) with (Z.of_nat n - 1)%Z by lia.
    rewrite Z.mul_comm, Z.div_mul by lia. lia.
Qed.

(** *** Similarity, further *)

Lemma Qmult_comm_eq (x y : Q) : x * y = y * x.
Proof.
  destruct x as [a b], y as [c d]. unfold Qmult. cbn [Qnum Qden].
  f_equal; [apply Z.mul_comm | apply Pos.mul_comm].
Qed.

Lemma dot_comm (a b : list Q) : dot a b = dot b a.
Proof.
  unfold dot. f_equal. revert b.
  induction a as [|x a IH]; intros [|y b]; cbn [combine map]; try reflexivity.
  cbn [fst snd]. rewrite (Qmult_comm_eq x y), (IH b). reflexivity.
Qed.

(** X8.  Similarity is symmetric: on vectors of one length the two orders
    of the arguments give the same result, and with any arguments one
    order yields a number exactly when the other does. *)
Theorem compute_similarity_symmetric (a b : list Q) :
  (List.length a = List.length b ->
   compute_similarity a b = compute_similarity b a)
  /\ ((exists s, compute_similarity a b = inr s)
      <-> (exists s, compute_similarity b a = inr s)).
Proof.
  assert (Hsym : forall u v : list Q, List.length u = List.length v ->
            compute_similarity u v = compute_similarity v u).
  { intros u v Hlen. unfold compute_similarity, cosine_similarity.
    rewrite Hlen, orb_diag, Nat.eqb_refl. cbn [negb].
    rewrite (dot_comm u v), (Qmult_comm_eq (linalg_norm u) (linalg_norm v)).
    reflexivity. }
  split; [apply Hsym|].
  split; intros [s Hs]; destruct (compute_similarity_ok_inv _ _ _ Hs)
    as [Hlen _]; exists s.
  - rewrite <- Hs. symmetry. apply Hsym. exact Hlen.
  - rewrite <- Hs. apply Hsym. symmetry. exact Hlen.
Qed.

Lemma dot_self (a : list Q) : dot a a = Np.sum (map (fun x => x * x) a).
Proof.
  unfold dot. f_equal.
  induction a as [|x a IH]; [reflexivity|].
  cbn [combine map fst snd]. rewrite IH. reflexivity.
Qed.

(** X10.  A non-zero vector compared with itself scores 1 and passes the
    threshold, provided the square root is exact at its squared norm. *)
Theorem self_similarity_is_one (a : list Q) :
  let s := Np.sum (map (fun x => x * x) a) in
  a <> [] -> ~ s == 0 -> sqrt s * sqrt s == s ->
  exists sim,
    compute_similarity a a = inr sim
    /\ sim == 1
    /\ Py.ge sim SIMILARITY_THRESHOLD = true.
Proof.
  intros s Hne Hs Hsqrt.
  assert (Hsim : compute_similarity a a
                 = inr (dot a a / (linalg_norm a * linalg_norm a))).
  { unfold compute_similarity, cosine_similarity.
    destruct a as [|x a]; [contradiction Hne; reflexivity|].
    cbn [List.length Nat.eqb orb]. rewrite Nat.eqb_refl. reflexivity. }
  assert (Hone : dot a a / (linalg_norm a * linalg_norm a) == 1).
  { rewrite dot_self. unfold linalg_norm. fold s. rewrite Hsqrt.
    field. exact Hs. }
  eexists. split; [exact Hsim|]. split; [exact Hone|].
  unfold Py.ge. apply Qle_bool_iff. rewrite Hone.
  unfold SIMILARITY_THRESHOLD. lra.
Qed.

(** *** The averaged embedding, further *)

(** X11.  The aggregator returns a vector exactly on a non-empty list of
    frames whose feature vectors have one length, and the vector has that
    length; on no frames and on feature vectors of different lengths it
    fails. *)
Theorem get_average_embedding_defined_iff (frames : list Frame) :
  ((exists v, get_average_embedding frames = inr v)
   <-> (frames <> []
        /\ forall f g, In f frames -> In g frames ->
             List.length (frame_to_embedding f)
             = List.length (frame_to_embedding g)))
  /\ (forall v f,
        get_average_embedding frames = inr v -> In f frames ->
        List.length v = List.length (frame_to_embedding f)).
Proof.
  unfold get_average_embedding.
  destruct frames as [|f0 frames].
  - split.
    + split; [intros [v H]; discriminate H|].
      intros [Hne _]. contradiction Hne. reflexivity.
    + intros v f H. discriminate H.
  - cbn [map].
    change (frame_to_embedding f0 :: map frame_to_embedding frames)
      with (map frame_to_embedding (f0 :: frames)).
    destruct (same_length (map frame_to_embedding (f0 :: frames))) eqn:E.
    + assert (Hall : forall f g, In f (f0 :: frames) -> In g (f0 :: frames) ->
                List.length (frame_to_embedding f)
                = List.length (frame_to_embedding g)).
      { intros f g Hf Hg. apply (proj1 (same_length_iff _) E);
          apply in_map; assumption. }
      split.
      * split; [intros _; split; [discriminate|exact Hall]|].
        intros _. eexists. reflexivity.
      * intros v f H Hf. injection H as <-.
        rewrite length_map. unfold mean_axis0. cbn [map].
        rewrite length_map, length_seq.
        apply Hall; [left; reflexivity|exact Hf].
    + split.
      * split; [intros [v H]; discriminate H|].
        intros [_ Hall]. exfalso.
        assert (E' : same_length (map frame_to_embedding (f0 :: frames))
                     = true).
        { apply same_length_iff. intros v w Hv Hw.
          apply in_map_iff in Hv. destruct Hv as (fv & <- & Hfv).
          apply in_map_iff in Hw. destruct Hw as (fw & <- & Hfw).
          apply Hall; assumption. }
        congruence.
      * intros v f H. discriminate H.
Qed.

(** *** The challenge catalogue *)

(** X12.  Looking a challenge up by id returns the catalogue entry with
    that id, and nothing exactly when no entry has it; every entry is
    found under its own id, and the direction it expects is one the
    classifier can report. *)
Theorem get_challenge_by_id_lookup (challenge_id : string) :
  (forall c, get_challenge_by_id challenge_id = Some c ->
             In c CHALLENGES /\ id c = challenge_id)
  /\ (get_challenge_by_id challenge_id = None
      <-> forall c, In c CHALLENGES -> id c <> challenge_id)
  /\ (forall c, In c CHALLENGES ->
        get_challenge_by_id (id c) = Some c
        /\ In (expected_direction c) SCORES_ORDER).
Proof.
  unfold get_challenge_by_id. split; [|split].
  - intros c H. apply find_some in H. destruct H as [Hin Heq].
    split; [exact Hin | apply String.eqb_eq, Heq].
  - split.
    + intros H c Hin Heq.
      pose proof (find_none _ _ H c Hin) as Hf. cbn beta in Hf.
      apply String.eqb_neq in Hf. contradiction.
    + intro H.
      destruct (find (fun c => String.eqb (id c) challenge_id) CHALLENGES)
        as [c|] eqn:E; [|reflexivity].
      apply find_some in E. destruct E as [Hin Heq].
      apply String.eqb_eq in Heq. exfalso. exact (H c Hin Heq).
  - intros c Hin. unfold CHALLENGES, SCORES_ORDER in *.
    destruct Hin as [<-|[<-|[<-|[<-|[<-|[]]]]]];
      (split; [reflexivity | cbn; auto 6]).
Qed.

(** X13.  A challenge handed out by [get_random_challenge] is an entry of
    the catalogue, so looking it up by its id returns it. *)
Theorem random_challenge_is_known (drawn : nat) :
  (drawn < List.length CHALLENGES)%nat ->
  exists c,
    get_random_challenge drawn = Some c
    /\ In c CHALLENGES
    /\ get_challenge_by_id (id c) = Some c.
Proof.
  intro H. unfold get_random_challenge.
  destruct (nth_error CHALLENGES drawn) as [c|] eqn:E.
  - exists c. split; [reflexivity|].
    assert (Hin : In c CHALLENGES) by (eapply nth_error_In; exact E).
    split; [exact Hin|].
    unfold CHALLENGES in Hin.
    destruct Hin as [<-|[<-|[<-|[<-|[<-|[]]]]]]; reflexivity.
  - apply nth_error_None in E. lia.
Qed.

(** *** The endpoint, further *)

(** X14.  [authenticate] returns a response exactly when a vector is
    stored, the challenge id is known, and extraction, aggregation and
    similarity all succeed; a failing verdict never turns into a fault.
    A fault has status 400 when the stored vector or the challenge is
    missing and status 500, carrying the exception, otherwise. *)
Theorem authenticate_response_iff
  (stored_emb : option (list Q)) (cid : string) (video : Video Frame)
  (uuid4 : string) :
  ((exists resp, value (authenticate stored_emb cid video uuid4) = inr resp)
   <-> exists stored challenge frames live sim,
         stored_emb = Some stored
         /\ get_challenge_by_id cid = Some challenge
         /\ extract_frames video 10 = inr frames
         /\ get_average_embedding frames = inr live
         /\ compute_similarity stored live = inr sim)
  /\ forall h,
       value (authenticate stored_emb cid video uuid4) = inl h ->
       (status_code h = 400%Z
        /\ (stored_emb = None \/ get_challenge_by_id cid = None))
       \/ (status_code h = 500%Z
           /\ stored_emb <> None
           /\ get_challenge_by_id cid <> None
           /\ exists e, detail h = AuthenticationFailed e).
Proof.
  split.
  - split.
    + intros [resp H].
      destruct (authenticate_ok_inv _ _ _ _ _ H)
        as (stored & challenge & frames & live & sim & Hs & Hc & Hf & Hl
            & Hsim & _).
      exists stored, challenge, frames, live, sim. auto.
    + intros (stored & challenge & frames & live & sim & -> & Hc & Hf & Hl
              & Hsim).
      eapply authenticate_ok; eassumption.
  - intros h H. unfold authenticate in H.
    destruct stored_emb as [stored|];
      [|cbn [value ret fst] in H; injection H as <-; left;
        split; [reflexivity|left; reflexivity]].
    destruct (get_challenge_by_id cid) as [challenge|];
      [|cbn [value ret fst] in H; injection H as <-; left;
        split; [reflexivity|right; reflexivity]].
    right.
    assert (H500 : forall e, internal_error e = h ->
              status_code h = 500%Z /\ Some stored <> None
              /\ Some challenge <> None
              /\ exists e', detail h = AuthenticationFailed e').
    { intros e <-. repeat split; try discriminate. exists e. reflexivity. }
    destruct (extract_frames video 10) as [e|frames];
      [cbn [value ret fst] in H; injection H as H; exact (H500 e H)|].
    rewrite !value_bind in H.
    destruct (get_average_embedding frames) as [e|live];
      [cbn [value ret fst] in H; injection H as H; exact (H500 e H)|].
    destruct (compute_similarity stored live) as [e|sim];
      [cbn [value ret fst] in H; injection H as H; exact (H500 e H)|].
    cbv zeta in H.
    destruct (is_live _ && direction_match _ && Py.ge sim SIMILARITY_THRESHOLD)
      in H; discriminate H.
Qed.

(** X15.  The evidence log of a response has five lines, one per stage in
    the order extraction, liveness, direction, similarity, result: the
    number of frames extracted; the liveness and the direction verdicts,
    each with its mark and reason; the similarity to four decimals with
    its mark and the threshold; and the result.  The result line of a
    rejection names the failing stages, which are exactly the stages whose
    verdict is negative, in the order liveness, direction, similarity,
    separated by a comma and a space. *)
Theorem evidence_log_names_failing_stages
  (stored_emb : option (list Q)) (cid : string) (video : Video Frame)
  (uuid4 : string) (resp : AuthResponse) :
  value (authenticate stored_emb cid video uuid4) = inr resp ->
  let d := details resp in
  let lp := liveness_passed (liveness d) in
  let dp := direction_passed (direction d) in
  let sp := similarity_passed (similarity d) in
  exists stored frames live sim,
    stored_emb = Some stored
    /\ extract_frames video 10 = inr frames
    /\ get_average_embedding frames = inr live
    /\ compute_similarity stored live = inr sim
    /\ authenticated resp = lp && dp && sp
    /\ auth_log d
       = [ ("✓ Extracted " ++ Py.str_nat (List.length frames)
            ++ " frames from video")%string;
           ((if lp then "✓" else "✗") ++ " Liveness: "
            ++ liveness_details_reason (liveness d))%string;
           ((if dp then "✓" else "✗") ++ " Direction: "
            ++ direction_details_reason (direction d))%string;
           ((if sp then "✓" else "✗") ++ " Similarity: " ++ fmt_f 4 sim
            ++ " (threshold: " ++ repr_float SIMILARITY_THRESHOLD
            ++ ")")%string;
           match lp, dp, sp with
           | true, true, true =>
               "🟢 RESULT: AUTHENTICATED — All checks passed!"
           | false, true, true =>
               "🔴 RESULT: REJECTED — failed liveness (static/replay)"
           | true, false, true =>
               "🔴 RESULT: REJECTED — failed challenge direction"
           | true, true, false =>
               "🔴 RESULT: REJECTED — object mismatch"
           | false, false, true =>
               "🔴 RESULT: REJECTED — failed liveness (static/replay), failed challenge direction"
           | false, true, false =>
               "🔴 RESULT: REJECTED — failed liveness (static/replay), object mismatch"
           | true, false, false =>
               "🔴 RESULT: REJECTED — failed challenge direction, object mismatch"
           | false, false, false =>
               "🔴 RESULT: REJECTED — failed liveness (static/replay), failed challenge direction, object mismatch"
           end%string ].
Proof.
  intros H d lp dp sp.
  unfold authenticate in H.
  destruct stored_emb as [stored|]; [|discriminate H].
  destruct (get_challenge_by_id cid) as [challenge|]; [|discriminate H].
  destruct (extract_frames video 10) as [e|frames] eqn:Hf; [discriminate H|].
  rewrite !value_bind in H.
  destruct (get_average_embedding frames) as [e|live] eqn:Ha;
    [discriminate H|].
  destruct (compute_similarity stored live) as [e|sim] eqn:Hs;
    [discriminate H|].
  cbv zeta in H.
  exists stored, frames, live, sim.
  do 4 (split; [first [reflexivity | assumption]|]).
  destruct (is_live (value (check_liveness frames LIVENESS_THRESHOLD)))
    eqn:El;
    destruct (direction_match
                (value (check_challenge_direction frames
                          (expected_direction challenge)
                          DIRECTION_THRESHOLD))) eqn:Ed;
    destruct (Py.ge sim SIMILARITY_THRESHOLD) eqn:Es;
    cbn [andb value ret fst] in H; injection H as <-;
    subst d lp dp sp;
    cbn [details liveness direction similarity authenticated auth_log
         liveness_passed direction_passed similarity_passed
         liveness_details_reason direction_details_reason];
    rewrite ?El, ?Ed, ?Es; split; reflexivity.
Qed.

Lemma direction_agree (frames : list Frame) (e1 e2 : string) (thr : Q) :
  let r1 := check_challenge_direction frames e1 thr in
  let r2 := check_challenge_direction frames e2 thr in
  direction_match (value r1) = direction_match (value r2)
  /\ detected_direction (value r1) = detected_direction (value r2)
  /\ confidence (value r1) = confidence (value r2)
  /\ trace r1 = trace r2.
Proof.
  intros r1 r2. subst r1 r2.
  destruct (List.length frames <? 2)%nat eqn:E.
  - apply Nat.ltb_lt in E.
    rewrite !(check_challenge_direction_few frames _ thr E).
    repeat split.
  - apply Nat.ltb_ge in E.
    destruct (direction_fields frames e1 thr E) as (Hd1 & Hc1 & Hm1 & _).
    destruct (direction_fields frames e2 thr E) as (Hd2 & Hc2 & Hm2 & _).
    assert (Hd : detected_direction
                   (value (check_challenge_direction frames e1 thr))
                 = detected_direction
                     (value (check_challenge_direction frames e2 thr)))
      by (rewrite Hd1, Hd2; reflexivity).
    split; [rewrite Hm1, Hm2, Hd; reflexivity|].
    split; [exact Hd|].
    split; [rewrite Hc1, Hc2, Hd; reflexivity|].
    unfold check_challenge_direction. rewrite (enough_frames frames E).
    bind_norm. cbv zeta.
    destruct (negb _ && _); destruct (negb _ && _);
      try destruct (String.eqb _ e1 && _);
      try destruct (String.eqb _ e2 && _); reflexivity.
Qed.

(** X16.  Which known challenge is presented has no influence on the
    decision: two runs of [authenticate] that differ only in the challenge
    id, both ids known, make the same calls and either fail with the same
    fault or return responses with the same [authenticated] flag, session
    identifier, liveness and similarity verdicts, and the same outcome,
    detected direction and confidence of the direction verdict. *)
Theorem authenticate_ignores_challenge
  (stored_emb : option (list Q)) (cid1 cid2 : string) (video : Video Frame)
  (uuid4 : string) :
  get_challenge_by_id cid1 <> None ->
  get_challenge_by_id cid2 <> None ->
  trace (authenticate stored_emb cid1 video uuid4)
  = trace (authenticate stored_emb cid2 video uuid4)
  /\ match value (authenticate stored_emb cid1 video uuid4),
           value (authenticate stored_emb cid2 video uuid4) with
     | inl h1, inl h2 => h1 = h2
     | inr r1, inr r2 =>
         authenticated r1 = authenticated r2
         /\ session_id r1 = session_id r2
         /\ liveness (details r1) = liveness (details r2)
         /\ similarity (details r1) = similarity (details r2)
         /\ direction_passed (direction (details r1))
            = direction_passed (direction (details r2))
         /\ direction_detected (direction (details r1))
            = direction_detected (direction (details r2))
         /\ direction_confidence (direction (details r1))
            = direction_confidence (direction (details r2))
     | _, _ => False
     end.
Proof.
  intros H1 H2. unfold authenticate.
  destruct (get_challenge_by_id cid1) as [c1|]; [|contradiction H1; reflexivity].
  destruct (get_challenge_by_id cid2) as [c2|]; [|contradiction H2; reflexivity].
  destruct stored_emb as [stored|]; [|split; reflexivity].
  destruct (extract_frames video 10) as [e|frames]; [split; reflexivity|].
  bind_norm.
  destruct (direction_agree frames (expected_direction c1)
              (expected_direction c2) DIRECTION_THRESHOLD)
    as (Hm & Hd & Hc & Ht).
  cbv zeta in Hm, Hd, Hc, Ht. rewrite Ht.
  destruct (get_average_embedding frames) as [e|live]; [split; reflexivity|].
  destruct (compute_similarity stored live) as [e|sim];
    [split; reflexivity|].
  cbv zeta. rewrite Hm.
  destruct (is_live _ && direction_match _ && Py.ge sim SIMILARITY_THRESHOLD);
    cbn [value trace ret fst snd authenticated session_id details liveness
         similarity direction direction_passed direction_detected
         direction_confidence];
    rewrite ?Hm, ?Hd, ?Hc; repeat split; reflexivity.
Qed.

(** *** Passwords *)

Lemma hex_digit_not_dollar (c : ascii) :
  PyStr.is_hex_digit c = true -> Ascii.eqb c "$" = false.
Proof.
  destruct c as [[] [] [] [] [] [] [] []]; cbn; intro H;
    first [reflexivity | discriminate H].
Qed.

Lemma split_once_after_hex (salt rest : string) :
  PyStr.is_hex salt = true ->
  PyStr.split_once "$" (salt ++ "$" ++ rest)%string = Some (salt, rest).
Proof.
  induction salt as [|c salt IH]; intro H.
  - reflexivity.
  - cbn [PyStr.is_hex] in H. apply andb_true_iff in H. destruct H as [Hc Hs].
    cbn [append PyStr.split_once] in *.
    rewrite (hex_digit_not_dollar c Hc), (IH Hs). reflexivity.
Qed.

(** X17.  A password verifies against its own hash, whatever hexadecimal
    salt was drawn, and another password verifies against that hash
    exactly when the salted digests coincide. *)
Theorem password_round_trip
  (sha256_hexdigest : string -> string) (salt password other : string) :
  PyStr.is_hex salt = true ->
  verify_password sha256_hexdigest password
    (hash_password sha256_hexdigest salt password) = true
  /\ (verify_password sha256_hexdigest other
        (hash_password sha256_hexdigest salt password) = true
      <-> sha256_hexdigest (salt ++ other)%string
          = sha256_hexdigest (salt ++ password)%string).
Proof.
  intro Hhex. unfold verify_password, hash_password.
  rewrite (split_once_after_hex salt _ Hhex).
  split; [apply String.eqb_refl | apply String.eqb_eq].
Qed.

(** X18.  A stored hash without the separator rejects every password; in
    particular no password verifies against the marker stored for
    accounts registered with a visual key only. *)
Theorem separatorless_hash_rejects
  (sha256_hexdigest : string -> string) (password : string) :
  verify_password sha256_hexdigest password VISUAL_ONLY = false
  /\ forall hashed,
       PyStr.split_once "$" hashed = None ->
       verify_password sha256_hexdigest password hashed = false.
Proof.
  split; [reflexivity|].
  intros hashed H. unfold verify_password. rewrite H. reflexivity.
Qed.

(** *** The users table *)

Lemma username_set_embedding (name : string) (value : option (list Q))
  (u : Models.User) :
  Models.username (Models.set_embedding name value u) = Models.username u
  /\ Models.id (Models.set_embedding name value u) = Models.id u
  /\ Models.password_hash (Models.set_embedding name value u)
     = Models.password_hash u.
Proof.
  unfold Models.set_embedding.
  destruct (String.eqb (Models.username u) name); repeat split.
Qed.

Lemma find_set_embedding (name : string) (value : option (list Q))
  (other : string) (rows : list Models.User) :
  find (fun u => String.eqb (Models.username u) other)
       (map (Models.set_embedding name value) rows)
  = option_map (Models.set_embedding name value)
      (find (fun u => String.eqb (Models.username u) other) rows).
Proof.
  induction rows as [|u rows IH]; [reflexivity|].
  cbn [map find].
  rewrite (proj1 (username_set_embedding name value u)).
  destruct (String.eqb (Models.username u) other); [reflexivity|exact IH].
Qed.

Lemma get_embedding_after_set (db_users : list Models.User) (n : Z)
  (name other : string) (value : option (list Q)) :
  Models.get_embedding
    {| Models.users := map (Models.set_embedding name value) db_users;
       Models.last_id := n |} other
  = match Models.get_user {| Models.users := db_users;
                             Models.last_id := n |} other with
    | Some u => if String.eqb other name then value else Models.embedding u
    | None => None
    end.
Proof.
  unfold Models.get_embedding, Models.get_user. cbn [Models.users].
  rewrite find_set_embedding.
  destruct (find _ db_users) as [u|] eqn:E; [|reflexivity].
  cbn [option_map]. apply find_some in E. destruct E as [_ Hname].
  apply String.eqb_eq in Hname. unfold Models.set_embedding.
  rewrite Hname. destruct (String.eqb other name); reflexivity.
Qed.

(** X19.  Storing a vector for a user and reading it back returns that
    vector, a second store replacing the first; for a name with no row
    the store changes nothing that can be read; the vectors, ids and
    password hashes of the other users are untouched. *)
Theorem store_embedding_then_get
  (db : Models.DB) (name : string) (vector : list Q) :
  let db' := Models.store_embedding db name vector in
  Models.get_embedding db' name
  = (match Models.get_user db name with
     | Some _ => Some vector
     | None => None
     end)
  /\ (forall again,
        Models.get_embedding (Models.store_embedding db' name again) name
        = match Models.get_user db name with
          | Some _ => Some again
          | None => None
          end)
  /\ (forall other, other <> name ->
        Models.get_embedding db' other = Models.get_embedding db other)
  /\ (forall other,
        option_map Models.id (Models.get_user db' other)
        = option_map Models.id (Models.get_user db other)
        /\ option_map Models.password_hash (Models.get_user db' other)
           = option_map Models.password_hash (Models.get_user db other)).
Proof.
  intro db'. subst db'. destruct db as [rows n].
  unfold Models.store_embedding. cbn [Models.users Models.last_id].
  split; [|split; [|split]].
  - rewrite get_embedding_after_set, String.eqb_refl. reflexivity.
  - intro again. rewrite get_embedding_after_set, String.eqb_refl.
    unfold Models.get_user. cbn [Models.users].
    rewrite find_set_embedding.
    destruct (find _ rows); reflexivity.
  - intros other Hne. rewrite get_embedding_after_set.
    apply String.eqb_neq in Hne. rewrite Hne.
    unfold Models.get_embedding. destruct (Models.get_user _ other);
      reflexivity.
  - intro other. unfold Models.get_user. cbn [Models.users].
    rewrite find_set_embedding.
    destruct (find _ rows) as [u|]; [|split; reflexivity].
    cbn [option_map].
    destruct (username_set_embedding name (Some vector) u) as (_ & Hi & Hp).
    rewrite Hi, Hp. split; reflexivity.
Qed.

(** X20.  After a revocation the user has no stored vector, whatever was
    stored before, and the vectors of the other users are untouched. *)
Theorem revoke_embedding_then_get (db : Models.DB) (name : string) :
  Models.get_embedding (Models.revoke_embedding db name) name = None
  /\ (forall vector,
        Models.get_embedding
          (Models.revoke_embedding (Models.store_embedding db name vector)
             name) name = None)
  /\ forall other, other <> name ->
       Models.get_embedding (Models.revoke_embedding db name) other
       = Models.get_embedding db other.
Proof.
  destruct db as [rows n].
  unfold Models.revoke_embedding, Models.store_embedding.
  cbn [Models.users Models.last_id].
  split; [|split].
  - rewrite get_embedding_after_set, String.eqb_refl.
    destruct (Models.get_user _ name); reflexivity.
  - intro vector. rewrite get_embedding_after_set, String.eqb_refl.
    destruct (Models.get_user _ name); reflexivity.
  - intros other Hne. rewrite get_embedding_after_set.
    apply String.eqb_neq in Hne. rewrite Hne.
    unfold Models.get_embedding. destruct (Models.get_user _ other);
      reflexivity.
Qed.

Lemma find_app_none {A : Type} (p : A -> bool) (l : list A) (a : A) :
  find p l = None -> find p (l ++ [a]) = if p a then Some a else None.
Proof.
  induction l as [|x l IH]; intro H; cbn [app find] in *.
  - reflexivity.
  - destruct (p x); [discriminate H|]. apply IH, H.
Qed.

Lemma find_app_some {A : Type} (p : A -> bool) (l : list A) (a x : A) :
  find p l = Some x -> find p (l ++ [a]) = Some x.
Proof.
  induction l as [|y l IH]; intro H; cbn [app find] in *.
  - discriminate H.
  - destruct (p y); [exact H|]. apply IH, H.
Qed.

Lemma get_user_none_not_in (db : Models.DB) (name : string) :
  Models.get_user db name = None ->
  ~ In name (map Models.username (Models.users db)).
Proof.
  intros H Hin. apply in_map_iff in Hin. destruct Hin as (u & Hu & Hin).
  pose proof (find_none _ _ H u Hin) as Hf. cbn beta in Hf.
  rewrite Hu, String.eqb_refl in Hf. discriminate Hf.
Qed.

Lemma create_user_fresh (db : Models.DB) (name hash : string) :
  Models.get_user db name = None ->
  exists db',
    Models.create_user db name hash = inr ((Models.last_id db + 1)%Z, db')
    /\ Models.get_user db' name
       = Some {| Models.id := (Models.last_id db + 1)%Z;
                 Models.username := name;
                 Models.password_hash := hash;
                 Models.embedding := None |}
    /\ forall other, other <> name ->
         Models.get_user db' other = Models.get_user db other.
Proof.
  intro H. unfold Models.create_user. rewrite H.
  eexists. split; [reflexivity|]. split.
  - unfold Models.get_user in *. cbn [Models.users].
    rewrite (find_app_none _ _ _ H). cbn [Models.username].
    rewrite String.eqb_refl. reflexivity.
  - intros other Hne. unfold Models.get_user in *. cbn [Models.users].
    destruct (find (fun u => String.eqb (Models.username u) other)
                (Models.users db)) as [x|] eqn:E.
    + apply (find_app_some _ _ _ _ E).
    + rewrite (find_app_none _ _ _ E). cbn [Models.username].
      assert (Hn : String.eqb name other = false).
      { apply String.eqb_neq. intro Heq. apply Hne. symmetry. exact Heq. }
      rewrite Hn. reflexivity.
Qed.

(** X21.  Creating a user under a name already taken fails and names the
    user.  Under a free name it appends a row with the next id, the given
    hash and no stored vector, which [get_user] then returns, and it
    leaves every other user as found. *)
Theorem create_user_then_get (db : Models.DB) (name hash : string) :
  (forall u, Models.get_user db name = Some u ->
     Models.create_user db name hash = inl (Models.UsernameExists name))
  /\ (Models.get_user db name = None ->
      exists db',
        Models.create_user db name hash
        = inr ((Models.last_id db + 1)%Z, db')
        /\ Models.get_user db' name
           = Some {| Models.id := (Models.last_id db + 1)%Z;
                     Models.username := name;
                     Models.password_hash := hash;
                     Models.embedding := None |}
        /\ Models.get_embedding db' name = None
        /\ forall other, other <> name ->
             Models.get_user db' other = Models.get_user db other).
Proof.
  split.
  - intros u H. unfold Models.create_user. rewrite H. reflexivity.
  - intro H.
    destruct (create_user_fresh db name hash H) as (db' & Hc & Hg & Ho).
    exists db'. split; [exact Hc|]. split; [exact Hg|]. split; [|exact Ho].
    unfold Models.get_embedding. rewrite Hg. reflexivity.
Qed.

Lemma map_set_embedding_fields (name : string) (value : option (list Q))
  (rows : list Models.User) :
  map Models.username (map (Models.set_embedding name value) rows)
  = map Models.username rows
  /\ map Models.id (map (Models.set_embedding name value) rows)
     = map Models.id rows.
Proof.
  rewrite !map_map. split; apply map_ext; intro u;
    destruct (username_set_embedding name value u) as (Hn & Hi & _);
    assumption.
Qed.

Lemma well_formed_set_embedding (db_users : list Models.User) (n : Z)
  (name : string) (value : option (list Q)) :
  Models.well_formed {| Models.users := db_users; Models.last_id := n |} ->
  Models.well_formed
    {| Models.users := map (Models.set_embedding name value) db_users;
       Models.last_id := n |}.
Proof.
  unfold Models.well_formed. cbn [Models.users Models.last_id].
  intros (Hn & Hi & Hle).
  destruct (map_set_embedding_fields name value db_users) as [En Ei].
  rewrite En, Ei. split; [exact Hn|]. split; [exact Hi|].
  apply Forall_forall. intros u Hu. apply in_map_iff in Hu.
  destruct Hu as (v & <- & Hv). rewrite Forall_forall in Hle.
  rewrite (proj1 (proj2 (username_set_embedding name value v))).
  apply Hle, Hv.
Qed.

(** X22.  The table keeps user names unique, ids unique and every id at
    most the sequence value: this holds of the empty table and is
    preserved by creating a user, storing a vector and revoking one. *)
Theorem well_formed_preserved :
  Models.well_formed Models.init_db
  /\ (forall db name hash new_id db',
        Models.well_formed db ->
        Models.create_user db name hash = inr (new_id, db') ->
        Models.well_formed db')
  /\ (forall db name vector,
        Models.well_formed db ->
        Models.well_formed (Models.store_embedding db name vector))
  /\ (forall db name,
        Models.well_formed db ->
        Models.well_formed (Models.revoke_embedding db name)).
Proof.
  split; [|split; [|split]].
  - unfold Models.well_formed, Models.init_db. cbn.
    repeat split; constructor.
  - intros db name hash new_id db' (Hn & Hi & Hle) H.
    unfold Models.create_user in H.
    destruct (Models.get_user db name) eqn:E; [discriminate H|].
    injection H as <- <-.
    unfold Models.well_formed. cbn [Models.users Models.last_id].
    rewrite !map_app. cbn [map Models.username Models.id].
    rewrite Forall_forall in Hle.
    split; [|split].
    + apply NoDup_app_remove_l with (l := []). cbn [app].
      apply Permutation_NoDup
        with (l := name :: map Models.username (Models.users db)).
      * apply Permutation_cons_append.
      * constructor; [apply (get_user_none_not_in db name E)|exact Hn].
    + apply Permutation_NoDup
        with (l := (Models.last_id db + 1)%Z
                   :: map Models.id (Models.users db)).
      * apply Permutation_cons_append.
      * constructor; [|exact Hi].
        intro Hin. apply in_map_iff in Hin. destruct Hin as (u & Hu & Hin).
        specialize (Hle u Hin). lia.
    + apply Forall_forall. intros u Hu. apply in_app_or in Hu.
      destruct Hu as [Hu|[<-|[]]].
      * specialize (Hle u Hu). lia.
      * cbn [Models.id]. lia.
  - intros [rows n] name vector H. apply well_formed_set_embedding, H.
  - intros [rows n] name H. apply well_formed_set_embedding, H.
Qed.

(** *** Visual login *)

Ltac step_binds := repeat (rewrite value_bind || rewrite trace_bind); cbv beta.

Ltac neither :=
  split;
  [ intros [? H]; cbn [value ret fst] in H; discriminate H
  | intros [? [H Ha]]; cbv zeta in H; cbn [value ret fst andb] in H;
    first [ discriminate H
          | injection H as <-; cbn [authenticated] in Ha; discriminate Ha ] ].

(** X23.  [login_visual] issues a token exactly when [authenticate], run
    on the vector stored for that user with the same challenge and video,
    returns an authenticated response; the token is the one of that user
    and the id returned is the id of the user's row. *)
Theorem login_visual_iff_authenticated
  (create_token : string -> string) (db : Models.DB)
  (username cid : string) (video : Video Frame) (uuid4 : string) :
  ((exists ok,
      value (login_visual create_token db username cid video) = inr ok)
   <-> (exists resp,
          value (authenticate (Models.get_embedding db username) cid video
                   uuid4) = inr resp
          /\ authenticated resp = true))
  /\ forall ok,
       value (login_visual create_token db username cid video) = inr ok ->
       visual_token ok = create_token username
       /\ option_map Models.id (Models.get_user db username)
          = Some (visual_user_id ok).
Proof.
  unfold login_visual, authenticate, Models.get_embedding.
  destruct (Models.get_user db username) as [user|];
    [|split; [neither | intros ok H; discriminate H]].
  destruct (Models.embedding user) as [stored|];
    [|split; [neither | intros ok H; discriminate H]].
  destruct (get_challenge_by_id cid) as [challenge|];
    [|split; [neither | intros ok H; discriminate H]].
  destruct (extract_frames video 10) as [e|frames];
    [split; [neither | intros ok H; discriminate H]|].
  step_binds.
  destruct (is_live (value (check_liveness frames LIVENESS_THRESHOLD)));
    cbn [negb].
  2:{ split; [|intros ok H; discriminate H].
      destruct (get_average_embedding frames) as [e|live]; [neither|].
      destruct (compute_similarity stored live) as [e|sim]; neither. }
  step_binds.
  destruct (direction_match
              (value (check_challenge_direction frames
                        (expected_direction challenge) DIRECTION_THRESHOLD)));
    cbn [negb].
  2:{ split; [|intros ok H; discriminate H].
      destruct (get_average_embedding frames) as [e|live]; [neither|].
      destruct (compute_similarity stored live) as [e|sim]; neither. }
  destruct (get_average_embedding frames) as [e|live];
    [split; [neither | intros ok H; discriminate H]|].
  destruct (compute_similarity stored live) as [e|sim];
    [split; [neither | intros ok H; discriminate H]|].
  unfold Py.lt, Py.ge.
  destruct (Qle_bool SIMILARITY_THRESHOLD sim); cbn [negb];
    [|split; [neither | intros ok H; discriminate H]].
  split.
  - split; intros _; eexists; [split|]; reflexivity.
  - intros ok H. injection H as <-. split; reflexivity.
Qed.

(** X24.  [login_visual] stops at the first failing check.  For an enrolled
    user, a known challenge and extracted frames: when liveness fails it
    answers 401 with the liveness reason after the calls of the liveness
    check alone; when liveness passes and the direction check fails it
    answers 401 after the calls of those two checks; in neither case is
    the similarity stage reached. *)
Theorem login_visual_stops_at_first_failure
  (create_token : string -> string) (db : Models.DB)
  (username cid : string) (video : Video Frame)
  (user : Models.User) (stored : list Q) (challenge : Challenge)
  (frames : list Frame) :
  Models.get_user db username = Some user ->
  Models.embedding user = Some stored ->
  get_challenge_by_id cid = Some challenge ->
  extract_frames video 10 = inr frames ->
  let lv := check_liveness frames LIVENESS_THRESHOLD in
  let dv := check_challenge_direction frames (expected_direction challenge)
              DIRECTION_THRESHOLD in
  let run := login_visual create_token db username cid video in
  (is_live (value lv) = false ->
   value run
   = inl (http_error 401
            ("Liveness failed: " ++ liveness_reason (value lv)))
   /\ trace run = trace lv)
  /\ (is_live (value lv) = true -> direction_match (value dv) = false ->
      value run
      = inl (http_error 401
               "Challenge failed: Movement direction did not match")
      /\ trace run = (trace lv ++ trace dv)%list).
Proof.
  intros Hu He Hc Hf lv dv run. subst run.
  unfold login_visual. rewrite Hu, He, Hc, Hf.
  split.
  - intro Hl. step_binds. fold lv. rewrite Hl. cbn [negb].
    cbn [value trace ret fst snd]. rewrite app_nil_r. split; reflexivity.
  - intros Hl Hd. step_binds. fold lv. rewrite Hl. cbn [negb].
    step_binds. fold dv. rewrite Hd. cbn [negb].
    cbn [value trace ret fst snd]. rewrite app_nil_r. split; reflexivity.
Qed.

(** *** Enrollment and registration *)

(** X25.  A successful enrollment stores the normalised average of the
    extracted frames under the user's name and reports how many frames
    were used and the dimension of the vector; for a user with a row,
    that vector is what [get_embedding] then returns. *)
Theorem enroll_object_stores_average
  (db db' : Models.DB) (username : string) (video_size : nat)
  (video : Video Frame) (ok : EnrollOk) :
  enroll_object db username video_size video = (inr ok, db') ->
  (1000 <= video_size)%nat
  /\ exists frames avg,
       extract_frames video 10 = inr frames
       /\ get_average_embedding frames = inr avg
       /\ frames_extracted ok = List.length frames
       /\ embedding_dim ok = List.length avg
       /\ db' = Models.store_embedding db username avg
       /\ Models.get_embedding db' username
          = match Models.get_user db username with
            | Some _ => Some avg
            | None => None
            end.
Proof.
  unfold enroll_object. intro H.
  destruct (video_size <? 1000)%nat eqn:Es; [discriminate H|].
  apply Nat.ltb_ge in Es. split; [exact Es|].
  destruct (extract_frames video 10) as [e|frames] eqn:Ef; [discriminate H|].
  destruct (get_average_embedding frames) as [e|avg] eqn:Ea;
    [discriminate H|].
  injection H as <- <-. exists frames, avg.
  split; [reflexivity|]. split; [exact Ea|].
  split; [reflexivity|]. split; [reflexivity|]. split; [reflexivity|].
  destruct db as [rows n]. unfold Models.store_embedding.
  cbn [Models.users Models.last_id].
  rewrite get_embedding_after_set, String.eqb_refl. reflexivity.
Qed.

Lemma login_visual_only_fails
  (sha256_hexdigest : string -> string) (create_token : string -> string)
  (db : Models.DB) (username password : string) (u : Models.User) :
  Models.get_user db username = Some u ->
  Models.password_hash u = VISUAL_ONLY ->
  login sha256_hexdigest create_token db username password
  = inl (http_error 401 "Invalid username or password").
Proof.
  intros Hu Hp. unfold login. rewrite Hu, Hp. reflexivity.
Qed.

(** X26.  A successful visual registration creates the account: the name
    was free, the new row has the next id, the visual-only marker as
    password hash and the normalised average of the extracted frames as
    stored vector; no password logs into that account; the other
    accounts are untouched. *)
Theorem register_visual_creates_visual_only_account
  (create_token : string -> string) (db db' : Models.DB)
  (username : string) (video_size : nat) (video : Video Frame)
  (ok : RegisterVisualOk) :
  register_visual create_token db username video_size video = (inr ok, db') ->
  Models.get_user db username = None
  /\ register_visual_user_id ok = (Models.last_id db + 1)%Z
  /\ register_visual_token ok = create_token username
  /\ (exists frames avg,
        extract_frames video 10 = inr frames
        /\ get_average_embedding frames = inr avg
        /\ Models.get_user db' username
           = Some {| Models.id := (Models.last_id db + 1)%Z;
                     Models.username := username;
                     Models.password_hash := VISUAL_ONLY;
                     Models.embedding := Some avg |})
  /\ (forall sha256_hexdigest create_token' password,
        login sha256_hexdigest create_token' db' username password
        = inl (http_error 401 "Invalid username or password"))
  /\ (forall other, other <> username ->
        Models.get_user db' other = Models.get_user db other).
Proof.
  unfold register_visual. intro H.
  destruct (PyStr.len username <? 3)%nat; [discriminate H|].
  destruct (Models.get_user db username) as [u|] eqn:Eu; [discriminate H|].
  destruct (video_size <? 1000)%nat; [discriminate H|].
  destruct (extract_frames video 10) as [e|frames] eqn:Ef; [discriminate H|].
  destruct (get_average_embedding frames) as [e|avg] eqn:Ea;
    [discriminate H|].
  destruct (create_user_fresh db username VISUAL_ONLY Eu)
    as (db1 & Hc & Hg & Ho).
  rewrite Hc in H. injection H as <- <-.
  cbn [register_visual_user_id register_visual_token].
  assert (Hrow : Models.get_user
                   (Models.store_embedding db1 username avg) username
                 = Some {| Models.id := (Models.last_id db + 1)%Z;
                           Models.username := username;
                           Models.password_hash := VISUAL_ONLY;
                           Models.embedding := Some avg |}).
  { unfold Models.get_user, Models.store_embedding in *.
    cbn [Models.users]. rewrite find_set_embedding, Hg.
    cbn [option_map]. unfold Models.set_embedding.
    cbn [Models.username Models.id Models.password_hash].
    rewrite String.eqb_refl. reflexivity. }
  split; [reflexivity|]. split; [reflexivity|]. split; [reflexivity|].
  split; [exists frames, avg; split; [reflexivity|]; split; assumption|].
  split.
  - intros sha ct password.
    apply (login_visual_only_fails sha ct _ username password _ Hrow).
    reflexivity.
  - intros other Hne. rewrite <- (Ho other Hne).
    unfold Models.get_user, Models.store_embedding. cbn [Models.users].
    rewrite find_set_embedding.
    destruct (find (fun u => String.eqb (Models.username u) other)
                (Models.users db1)) as [x|] eqn:E; [|reflexivity].
    cbn [option_map]. apply find_some in E. destruct E as [_ Hname].
    apply String.eqb_eq in Hname. unfold Models.set_embedding.
    rewrite Hname.
    apply String.eqb_neq in Hne. rewrite Hne. reflexivity.
Qed.

(** X27.  After a successful password registration the same password
    logs in, with no visual key enrolled yet, and a password whose salted
    digest differs is refused with status 401. *)
Theorem register_then_login
  (sha256_hexdigest : string -> string) (create_token : string -> string)
  (db db' : Models.DB) (salt username password : string) (ok : RegisterOk) :
  PyStr.is_hex salt = true ->
  register sha256_hexdigest create_token db salt username password
  = (inr ok, db') ->
  Models.get_user db username = None
  /\ register_user_id ok = (Models.last_id db + 1)%Z
  /\ login sha256_hexdigest create_token db' username password
     = inr {| login_token := create_token username;
              has_object := false;
              needs_visual_auth := false |}
  /\ forall other,
       sha256_hexdigest (salt ++ other)%string
       <> sha256_hexdigest (salt ++ password)%string ->
       login sha256_hexdigest create_token db' username other
       = inl (http_error 401 "Invalid username or password").
Proof.
  intros Hhex H. unfold register in H.
  destruct ((PyStr.len username <? 3) || (PyStr.len password <? 4))%nat;
    [discriminate H|].
  destruct (Models.get_user db username) as [u|] eqn:Eu.
  - unfold Models.create_user in H. rewrite Eu in H. discriminate H.
  - destruct (create_user_fresh db username
                (hash_password sha256_hexdigest salt password) Eu)
      as (db1 & Hc & Hg & _).
    rewrite Hc in H. injection H as <- <-.
    split; [reflexivity|]. split; [reflexivity|].
    unfold login. rewrite Hg. cbn [Models.password_hash Models.embedding].
    unfold verify_password, hash_password.
    rewrite (split_once_after_hex salt _ Hhex).
    split.
    + rewrite String.eqb_refl. reflexivity.
    + intros other Hne. apply String.eqb_neq in Hne. rewrite Hne.
      reflexivity.
Qed.

(** X28.  A request that fails writes nothing: when [register],
    [register_visual] or [enroll_object] answers with an error, the
    database is as it was. *)
Theorem failed_request_leaves_database
  (sha256_hexdigest : string -> string) (create_token : string -> string)
  (db db' : Models.DB) (salt username password : string)
  (video_size : nat) (video : Video Frame) (h : HTTPError) :
  (register sha256_hexdigest create_token db salt username password
   = (inl h, db') -> db' = db)
  /\ (register_visual create_token db username video_size video
      = (inl h, db') -> db' = db)
  /\ (enroll_object db username video_size video = (inl h, db') -> db' = db).
Proof.
  split; [|split]; intro H.
  - unfold register in H.
    destruct ((PyStr.len username <? 3) || (PyStr.len password <? 4))%nat;
      [injection H as _ <-; reflexivity|].
    destruct (Models.create_user db username _) as [[name]|[uid db1]];
      [injection H as _ <-; reflexivity | discriminate H].
  - unfold register_visual in H.
    destruct (PyStr.len username <? 3)%nat;
      [injection H as _ <-; reflexivity|].
    destruct (Models.get_user db username);
      [injection H as _ <-; reflexivity|].
    destruct (video_size <? 1000)%nat; [injection H as _ <-; reflexivity|].
    destruct (extract_frames video 10) as [e|frames];
      [injection H as _ <-; reflexivity|].
    destruct (get_average_embedding frames) as [e|avg];
      [injection H as _ <-; reflexivity|].
    destruct (Models.create_user db username VISUAL_ONLY)
      as [[name]|[uid db1]];
      [injection H as _ <-; reflexivity | discriminate H].
  - unfold enroll_object in H.
    destruct (video_size <? 1000)%nat; [injection H as _ <-; reflexivity|].
    destruct (extract_frames video 10) as [e|frames];
      [injection H as _ <-; reflexivity|].
    destruct (get_average_embedding frames) as [e|avg];
      [injection H as _ <-; reflexivity | discriminate H].
Qed.

(** X29.  Once a key is revoked the visual factor is closed for that
    user until a new enrollment: [login_visual] answers 401 without
    touching the video, [authenticate] on what is stored answers 400, a
    challenge is refused to the user, and an enrollment afterwards makes
    its vector the stored one again. *)
Theorem revoked_key_blocks_visual_login
  (create_token : string -> string) (db : Models.DB)
  (username cid : string) (video : Video Frame) (uuid4 : string)
  (drawn : nat) :
  let db' := revoke_key db username in
  login_visual create_token db' username cid video
  = (inl (http_error 401 "Invalid user or no visual key"), [])
  /\ authenticate (Models.get_embedding db' username) cid video uuid4
     = (inl {| status_code := 400;
               detail := DetailText
                 "No object enrolled. Please enroll an object first." |}, [])
  /\ (forall ch, login_challenge db' username drawn <> inr ch)
  /\ forall vector u,
       Models.get_user db username = Some u ->
       Models.get_embedding (Models.store_embedding db' username vector)
         username = Some vector.
Proof.
  intro db'. subst db'. unfold revoke_key.
  assert (Hemb : Models.get_embedding (Models.revoke_embedding db username)
                   username = None).
  { destruct db as [rows n]. unfold Models.revoke_embedding.
    cbn [Models.users Models.last_id].
    rewrite get_embedding_after_set, String.eqb_refl.
    destruct (Models.get_user _ username); reflexivity. }
  split; [|split; [|split]].
  - unfold login_visual. unfold Models.get_embedding in Hemb.
    destruct (Models.get_user (Models.revoke_embedding db username) username)
      as [u|]; [|reflexivity].
    rewrite Hemb. reflexivity.
  - rewrite Hemb. reflexivity.
  - intros ch H. unfold login_challenge in H.
    unfold Models.get_embedding in Hemb.
    destruct (Models.get_user (Models.revoke_embedding db username) username)
      as [u|]; [|discriminate H].
    rewrite Hemb in H. discriminate H.
  - intros vector u Hu. destruct db as [rows n].
    unfold Models.store_embedding, Models.revoke_embedding.
    cbn [Models.users Models.last_id].
    rewrite get_embedding_after_set, String.eqb_refl.
    unfold Models.get_user in *. cbn [Models.users] in *.
    rewrite find_set_embedding, Hu. reflexivity.
Qed.

End Backend.

(** ** The pipeline on the stand-ins *)

Notation "'stub_direction'" :=
  (check_challenge_direction Stub.Frame Stub.Frame Stub.cvtColor
     Stub.calcOpticalFlowFarneback Stub.sqrt Stub.fmt_f).

Notation "'stub_liveness'" :=
  (check_liveness Stub.Frame Stub.Frame Stub.cvtColor
     Stub.calcOpticalFlowFarneback Stub.sqrt Stub.fmt_f Stub.repr_float).

Notation "'stub_candidates'" :=
  (candidates Stub.Frame Stub.Frame Stub.cvtColor
     Stub.calcOpticalFlowFarneback Stub.sqrt).

Notation "'stub_average'" :=
  (get_average_embedding Stub.Frame Stub.sqrt Stub.frame_to_embedding).

Notation "'stub_authenticate'" :=
  (authenticate Stub.Frame Stub.Frame Stub.cvtColor
     Stub.calcOpticalFlowFarneback Stub.sqrt Stub.fmt_f Stub.repr_float
     Stub.frame_to_embedding).

Lemma stub_sqrt_nonneg (x : Q) : 0 <= Stub.sqrt x.
Proof.
  unfold Stub.sqrt.
  destruct (Stub.is_square (Qnum (Qred x))
            && Stub.is_square (Z.pos (Qden (Qred x))));
    unfold Qle; cbn [Qnum Qden];
    match goal with
    | |- (_ <= Z.sqrt ?n * _)%Z => pose proof (Z.sqrt_nonneg n)
    end; lia.
Qed.

(** A video of three frames moving right, matched against the stored
    vector of the same object, is authenticated and gets a session id. *)
Lemma authenticated_iff_all_pass_witness :
  exists resp,
    value (stub_authenticate (Some [3 # 5; 4 # 5]) "tilt_right"
             (Stub.uncounted Stub.right_frames) Stub.uuid_a) = inr resp
    /\ authenticated resp = true
    /\ exists sid, session_id resp = Some sid.
Proof.
  destruct (value (stub_authenticate (Some [3 # 5; 4 # 5]) "tilt_right"
                     (Stub.uncounted Stub.right_frames) Stub.uuid_a))
    as [e|resp] eqn:E.
  - exfalso. vm_compute in E. discriminate E.
  - exists resp. split; [reflexivity|].
    destruct (authenticated_iff_all_pass _ _ _ _ _ _ _ _ _ _ _ _ _ E)
      as (_ & Hsid & _).
    assert (Ha : authenticated resp = true).
    { pose proof E as E'. vm_compute in E'. injection E' as <-.
      reflexivity. }
    split; [exact Ha | apply Hsid; exact Ha].
Defined.

(** Half a pixel of rightward drift passes a rotation challenge under the
    leniency reason. *)
Lemma direction_passes_iff_confident_witness :
  (2 <= List.length Stub.drift_frames)%nat
  /\ direction_match
       (value (stub_direction Stub.drift_frames "rotation"
                 DIRECTION_THRESHOLD)) = true
  /\ direction_reason
       (value (stub_direction Stub.drift_frames "rotation"
                 DIRECTION_THRESHOLD))
     = leniency_reason Stub.fmt_f
         (detected_direction
            (value (stub_direction Stub.drift_frames "rotation"
                      DIRECTION_THRESHOLD)))
         (Py.get_or_zero (stub_candidates Stub.drift_frames)
            (detected_direction
               (value (stub_direction Stub.drift_frames "rotation"
                         DIRECTION_THRESHOLD))))
         "rotation".
Proof.
  assert (H : (2 <= List.length Stub.drift_frames)%nat) by (cbn; lia).
  split; [exact H|].
  destruct (direction_passes_iff_confident Stub.Frame Stub.Frame
              Stub.cvtColor Stub.calcOpticalFlowFarneback Stub.sqrt
              Stub.fmt_f Stub.drift_frames "rotation" DIRECTION_THRESHOLD H)
    as (_ & _ & _ & Hlenient & _).
  apply Hlenient.
  - vm_compute. reflexivity.
  - vm_compute. intro Heq. discriminate Heq.
Defined.

(** C3 as stated fails twice.  With expansion and horizontal flow both
    -0.5 the candidates zoom_out and left tie at 0.5: the declaration
    order names left, the classifier returns zoom_out.  With a rightward
    flow of 0.12345 the largest candidate is 0.12345 and the confidence of
    the verdict is 0.123. *)
Lemma declaration_order_tie_counterexample :
  argmax_first DECLARATION_ORDER
    (Py.get_or_zero (stub_candidates Stub.tie_frames)) = Some "left"%string
  /\ detected_direction
       (value (stub_direction Stub.tie_frames "left" DIRECTION_THRESHOLD))
     = "zoom_out"%string
  /\ Py.get_or_zero (stub_candidates Stub.faint_frames) "right"
     == 12345 # 100000
  /\ detected_direction
       (value (stub_direction Stub.faint_frames "right" DIRECTION_THRESHOLD))
     = "right"%string
  /\ confidence
       (value (stub_direction Stub.faint_frames "right" DIRECTION_THRESHOLD))
     == 123 # 1000
  /\ ~ confidence
         (value (stub_direction Stub.faint_frames "right"
                   DIRECTION_THRESHOLD))
       == Py.get_or_zero (stub_candidates Stub.faint_frames) "right".
Proof.
  repeat split; try (vm_compute; reflexivity).
  vm_compute. intro H. discriminate H.
Qed.

Lemma detected_direction_first_maximum_witness :
  (2 <= List.length Stub.tie_frames)%nat
  /\ argmax_first SCORES_ORDER
       (Py.get_or_zero (stub_candidates Stub.tie_frames))
     = Some (detected_direction
               (value (stub_direction Stub.tie_frames "left"
                         DIRECTION_THRESHOLD))).
Proof.
  assert (H : (2 <= List.length Stub.tie_frames)%nat) by (cbn; lia).
  split; [exact H|].
  destruct (detected_direction_first_maximum Stub.Frame Stub.Frame
              Stub.cvtColor Stub.calcOpticalFlowFarneback Stub.sqrt
              Stub.fmt_f Stub.tie_frames "left" DIRECTION_THRESHOLD H)
    as (_ & Hargmax & _).
  exact Hargmax.
Defined.

(** A stored vector of three entries against frames whose features have
    two. *)
Lemma dimension_mismatch_is_fault_witness :
  value (stub_authenticate (Some [1; 0; 0]) "tilt_right"
           (Stub.uncounted Stub.right_frames) Stub.uuid_a)
  = inl {| status_code := 500;
           detail := AuthenticationFailed
                       (ValueError_incompatible_dimension 3 2) |}.
Proof.
  edestruct (dimension_mismatch_is_fault Stub.Frame Stub.Frame Stub.cvtColor
               Stub.calcOpticalFlowFarneback Stub.sqrt Stub.fmt_f
               Stub.repr_float Stub.frame_to_embedding
               [1; 0; 0] "tilt_right" (Stub.uncounted Stub.right_frames)
               Stub.uuid_a)
    as (e & _ & Hv & Hkind).
  - vm_compute. reflexivity.
  - vm_compute. reflexivity.
  - vm_compute. reflexivity.
  - cbn. intro H. discriminate H.
  - rewrite Hv, Hkind; [reflexivity| |]; intro H; discriminate H.
Defined.

(** A capture from which a single frame decodes. *)
Lemma insufficient_frames_negative_witness :
  (List.length Stub.single_frame
   < 2)%nat
  /\ is_live
       (value (stub_liveness
                 Stub.single_frame
                 LIVENESS_THRESHOLD)) = false
  /\ trace (stub_authenticate (Some [1; 0]) "tilt_right"
              (Stub.uncounted
                 Stub.single_frame)
              Stub.uuid_a) = [].
Proof.
  assert (H : (List.length
                 Stub.single_frame
               < 2)%nat) by (cbn; lia).
  split; [exact H|].
  destruct (insufficient_frames_negative Stub.Frame Stub.Frame Stub.cvtColor
              Stub.calcOpticalFlowFarneback Stub.sqrt Stub.fmt_f
              Stub.repr_float Stub.frame_to_embedding
              Stub.single_frame
              LIVENESS_THRESHOLD "right" DIRECTION_THRESHOLD H)
    as (Hlive & _ & Hauth).
  split.
  - rewrite Hlive. reflexivity.
  - apply (Hauth (Some [1; 0]) "tilt_right"%string
             (Stub.uncounted
                Stub.single_frame)
             Stub.uuid_a).
    reflexivity.
Defined.

(** C6 as stated fails: the same authenticated attempt run with two UUID
    draws returns two session identifiers. *)
Lemma session_id_differs_counterexample :
  exists r1 r2,
    value (stub_authenticate (Some [3 # 5; 4 # 5]) "tilt_right"
             (Stub.uncounted Stub.right_frames) Stub.uuid_a) = inr r1
    /\ value (stub_authenticate (Some [3 # 5; 4 # 5]) "tilt_right"
                (Stub.uncounted Stub.right_frames) Stub.uuid_b) = inr r2
    /\ authenticated r1 = true
    /\ authenticated r2 = true
    /\ session_id r1 = Some "SP-3F2B8C1A"%string
    /\ session_id r2 = Some "SP-C0FFEE00"%string
    /\ r1 <> r2.
Proof.
  eexists. eexists.
  split; [vm_compute; reflexivity|].
  split; [vm_compute; reflexivity|].
  repeat split.
  intro H. apply (f_equal session_id) in H. cbn in H. discriminate H.
Qed.

(** The stored vector (1, 0) against frames with features (3, 4): the
    cosine is 0.60 and the verdict passes. *)
Lemma similarity_passes_iff_at_least_threshold_witness :
  exists resp,
    value (stub_authenticate (Some [1; 0]) "tilt_right"
             (Stub.uncounted Stub.right_frames) Stub.uuid_a) = inr resp
    /\ similarity_passed (similarity (details resp)) = true.
Proof.
  destruct (value (stub_authenticate (Some [1; 0]) "tilt_right"
                     (Stub.uncounted Stub.right_frames) Stub.uuid_a))
    as [e|resp] eqn:E.
  - exfalso. vm_compute in E. discriminate E.
  - exists resp. split; [reflexivity|].
    destruct (similarity_passes_iff_at_least_threshold _ _ _ _ _ _ _ _ _ _
                _ _ _ E)
      as (stored & frames & live & sim & Hs & Hf & Hl & _ & Hsim & _ & _
          & _ & Hbound).
    apply Hbound.
    injection Hs as <-.
    vm_compute in Hf. injection Hf as <-.
    vm_compute in Hl. injection Hl as <-.
    vm_compute in Hsim. injection Hsim as <-.
    vm_compute. reflexivity.
Defined.

(** Three frames of different objects, averaged in reverse order. *)
Lemma average_embedding_normalized_and_order_free_witness :
  Stub.mixed_frames <> []
  /\ stub_average (rev Stub.mixed_frames) = stub_average Stub.mixed_frames.
Proof.
  assert (Hne : Stub.mixed_frames <> []) by (intro H; discriminate H).
  split; [exact Hne|].
  destruct (average_embedding_normalized_and_order_free Stub.Frame Stub.sqrt
              Stub.frame_to_embedding stub_sqrt_nonneg
              Stub.mixed_frames 2 Hne)
    as (_ & _ & Hperm).
  - intros f [<-|[<-|[<-|[]]]]; reflexivity.
  - apply Hperm. apply Permutation_rev.
Defined.



(** ** The further properties on the stand-ins *)

Notation "'stub_login_visual'" :=
  (login_visual Stub.Frame Stub.Frame Stub.cvtColor
     Stub.calcOpticalFlowFarneback Stub.sqrt Stub.fmt_f Stub.repr_float
     Stub.frame_to_embedding StubAccounts.token_for).

Notation "'stub_enroll_object'" :=
  (enroll_object Stub.Frame Stub.sqrt Stub.frame_to_embedding).

Notation "'stub_register_visual'" :=
  (register_visual Stub.Frame Stub.sqrt Stub.frame_to_embedding
     StubAccounts.token_for).

Notation "'stub_register'" :=
  (register StubAccounts.digest StubAccounts.token_for).

Notation "'stub_login'" :=
  (login StubAccounts.digest StubAccounts.token_for).

Lemma liveness_passes_iff_enough_motion_witness :
  (2 <= List.length Stub.right_frames)%nat
  /\ is_live (value (stub_liveness Stub.right_frames LIVENESS_THRESHOLD))
     = true.
Proof.
  assert (H : (2 <= List.length Stub.right_frames)%nat) by (cbn; lia).
  split; [exact H|].
  destruct (liveness_passes_iff_enough_motion Stub.Frame Stub.Frame
              Stub.cvtColor Stub.calcOpticalFlowFarneback Stub.sqrt
              Stub.fmt_f Stub.repr_float Stub.right_frames
              LIVENESS_THRESHOLD H) as (Hiff & _).
  apply Hiff. vm_compute. intro Hgt. discriminate Hgt.
Defined.

Lemma motionless_video_rejected_witness :
  (2 <= List.length Stub.still_frames)%nat
  /\ is_live (value (stub_liveness Stub.still_frames LIVENESS_THRESHOLD))
     = false
  /\ direction_match
       (value (stub_direction Stub.still_frames "right"
                 DIRECTION_THRESHOLD)) = false.
Proof.
  assert (H : (2 <= List.length Stub.still_frames)%nat) by (cbn; lia).
  split; [exact H|].
  destruct (motionless_video_rejected Stub.Frame Stub.Frame Stub.cvtColor
              Stub.calcOpticalFlowFarneback Stub.sqrt Stub.fmt_f
              Stub.repr_float Stub.still_frames LIVENESS_THRESHOLD
              "right" DIRECTION_THRESHOLD H)
    as (Hlive & _ & _ & _ & _ & Hmatch).
  - vm_compute. reflexivity.
  - vm_compute. repeat constructor.
  - vm_compute. reflexivity.
  - vm_compute. intro Hgt. discriminate Hgt.
  - split; assumption.
Defined.

Lemma extract_frames_spans_video_witness :
  isOpened (Stub.counted (seq 0 12)) = true
  /\ exists frames,
       extract_frames nat (Stub.counted (seq 0 12)) 10 = inr frames
       /\ nth_error frames 0 = Some 0%nat
       /\ nth_error frames 9 = Some 11%nat.
Proof.
  split; [reflexivity|].
  destruct (extract_frames_spans_video nat (Stub.counted (seq 0 12)) 10
              eq_refl)
    as (frames & pos & Hex & _ & Hnth & _ & H0 & Hlast).
  - lia.
  - cbn. lia.
  - right. reflexivity.
  - exists frames. split; [exact Hex|]. split.
    + rewrite (Hnth 0%nat) by lia. rewrite H0. reflexivity.
    + rewrite (Hnth 9%nat) by lia.
      change 9%nat with (10 - 1)%nat. rewrite Hlast. reflexivity.
Defined.

Lemma self_similarity_is_one_witness :
  [3; 4] <> []
  /\ exists sim,
       compute_similarity Stub.sqrt [3; 4] [3; 4] = inr sim /\ sim == 1.
Proof.
  assert (Hne : [3; 4] <> []) by (intro H; discriminate H).
  split; [exact Hne|].
  destruct (self_similarity_is_one Stub.sqrt [3; 4] Hne)
    as (sim & Hsim & Hone & _).
  - vm_compute. intro H. discriminate H.
  - vm_compute. reflexivity.
  - exists sim. split; assumption.
Defined.

Lemma random_challenge_is_known_witness :
  (2 < List.length CHALLENGES)%nat
  /\ exists c, get_random_challenge 2 = Some c
               /\ get_challenge_by_id (id c) = Some c.
Proof.
  assert (H : (2 < List.length CHALLENGES)%nat) by (cbn; lia).
  split; [exact H|].
  destruct (random_challenge_is_known 2 H) as (c & Hc & _ & Hid).
  exists c. split; assumption.
Defined.

(** A motionless video against the stored vector of the same object is
    rejected, and the log names a failing stage. *)
Lemma evidence_log_names_failing_stages_witness :
  exists resp,
    value (stub_authenticate (Some [3 # 5; 4 # 5]) "tilt_right"
             (Stub.uncounted Stub.still_frames) Stub.uuid_a) = inr resp
    /\ authenticated resp = false
    /\ nth 4 (auth_log (details resp)) EmptyString
       = "🔴 RESULT: REJECTED — failed liveness (static/replay), failed challenge direction"%string.
Proof.
  destruct (value (stub_authenticate (Some [3 # 5; 4 # 5]) "tilt_right"
                     (Stub.uncounted Stub.still_frames) Stub.uuid_a))
    as [e|resp] eqn:E.
  - exfalso. vm_compute in E. discriminate E.
  - exists resp. split; [reflexivity|].
    destruct (evidence_log_names_failing_stages _ _ _ _ _ _ _ _ _ _ _ _ _ E)
      as (stored & frames & live & sim & _ & _ & _ & _ & Hauth & Hlog).
    rewrite Hauth, Hlog.
    pose proof E as E'. vm_compute in E'. injection E' as <-.
    split; reflexivity.
Defined.

Lemma authenticate_ignores_challenge_witness :
  get_challenge_by_id "tilt_right" <> None
  /\ get_challenge_by_id "tilt_left" <> None
  /\ trace (stub_authenticate (Some [3 # 5; 4 # 5]) "tilt_right"
              (Stub.uncounted Stub.right_frames) Stub.uuid_a)
     = trace (stub_authenticate (Some [3 # 5; 4 # 5]) "tilt_left"
                (Stub.uncounted Stub.right_frames) Stub.uuid_a).
Proof.
  assert (H1 : get_challenge_by_id "tilt_right" <> None)
    by (intro H; discriminate H).
  assert (H2 : get_challenge_by_id "tilt_left" <> None)
    by (intro H; discriminate H).
  split; [exact H1|]. split; [exact H2|].
  destruct (authenticate_ignores_challenge Stub.Frame Stub.Frame
              Stub.cvtColor Stub.calcOpticalFlowFarneback Stub.sqrt
              Stub.fmt_f Stub.repr_float Stub.frame_to_embedding
              (Some [3 # 5; 4 # 5]) "tilt_right" "tilt_left"
              (Stub.uncounted Stub.right_frames) Stub.uuid_a H1 H2)
    as (Htrace & _).
  exact Htrace.
Defined.

Lemma password_round_trip_witness :
  PyStr.is_hex "ab12" = true
  /\ verify_password StubAccounts.digest "secret"
       (hash_password StubAccounts.digest "ab12" "secret") = true.
Proof.
  assert (H : PyStr.is_hex "ab12" = true) by reflexivity.
  split; [exact H|].
  destruct (password_round_trip StubAccounts.digest "ab12" "secret" "other"
              H) as (Hok & _).
  exact Hok.
Defined.

(** Alice presents a motionless video: the liveness check stops the
    login. *)
Lemma login_visual_stops_at_first_failure_witness :
  exists h,
    value (stub_login_visual StubAccounts.db_alice "alice" "tilt_right"
             (Stub.uncounted Stub.still_frames)) = inl h
    /\ code h = 401%Z.
Proof.
  edestruct (login_visual_stops_at_first_failure Stub.Frame Stub.Frame
               Stub.cvtColor Stub.calcOpticalFlowFarneback Stub.sqrt
               Stub.fmt_f Stub.repr_float Stub.frame_to_embedding
               StubAccounts.token_for StubAccounts.db_alice
               "alice" "tilt_right" (Stub.uncounted Stub.still_frames))
    as (Hlive & _).
  - reflexivity.
  - reflexivity.
  - reflexivity.
  - reflexivity.
  - destruct Hlive as (Hv & _); [vm_compute; reflexivity|].
    eexists. split; [exact Hv | reflexivity].
Defined.

(** Alice enrolls a new object. *)
Lemma enroll_object_stores_average_witness :
  exists ok db',
    stub_enroll_object StubAccounts.db_alice "alice" 2000
      (Stub.uncounted Stub.right_frames) = (inr ok, db')
    /\ frames_extracted ok = 3%nat
    /\ embedding_dim ok = 2%nat
    /\ exists avg, Models.get_embedding db' "alice" = Some avg.
Proof.
  destruct (stub_enroll_object StubAccounts.db_alice "alice" 2000
              (Stub.uncounted Stub.right_frames)) as [[h|ok] db'] eqn:E.
  - exfalso. vm_compute in E. discriminate E.
  - exists ok, db'. split; [reflexivity|].
    destruct (enroll_object_stores_average _ _ _ _ _ _ _ _ _ E)
      as (_ & frames & avg & Hf & Ha & Hn & Hd & _ & Hget).
    vm_compute in Hf. injection Hf as <-.
    vm_compute in Ha. injection Ha as <-.
    split; [rewrite Hn; reflexivity|].
    split; [rewrite Hd; reflexivity|].
    eexists. rewrite Hget. reflexivity.
Defined.

(** Bob registers with a visual key only. *)
Lemma register_visual_creates_visual_only_account_witness :
  exists ok db',
    stub_register_visual StubAccounts.db_alice "bob" 2000
      (Stub.uncounted Stub.right_frames) = (inr ok, db')
    /\ register_visual_user_id ok = 2%Z
    /\ stub_login db' "bob" "guess"
       = inl (http_error 401 "Invalid username or password").
Proof.
  destruct (stub_register_visual StubAccounts.db_alice "bob" 2000
              (Stub.uncounted Stub.right_frames)) as [[h|ok] db'] eqn:E.
  - exfalso. vm_compute in E. discriminate E.
  - exists ok, db'. split; [reflexivity|].
    destruct (register_visual_creates_visual_only_account _ _ _ _ _ _ _ _ _ _
                E) as (_ & Hid & _ & _ & Hlogin & _).
    split; [rewrite Hid; reflexivity | apply Hlogin].
Defined.

(** Carol registers with a password and logs in with it. *)
Lemma register_then_login_witness :
  exists ok db',
    stub_register StubAccounts.db_alice "cd34" "carol" "hunter2"
    = (inr ok, db')
    /\ stub_login db' "carol" "hunter2"
       = inr {| login_token := StubAccounts.token_for "carol";
                has_object := false;
                needs_visual_auth := false |}.
Proof.
  destruct (stub_register StubAccounts.db_alice "cd34" "carol" "hunter2")
    as [[h|ok] db'] eqn:E.
  - exfalso. vm_compute in E. discriminate E.
  - exists ok, db'. split; [reflexivity|].
    destruct (register_then_login StubAccounts.digest StubAccounts.token_for
                StubAccounts.db_alice db' "cd34" "carol" "hunter2" ok
                eq_refl E) as (_ & _ & Hlogin & _).
    exact Hlogin.
Defined.
